(** * playwright-mcp: the connection facade and the screenshot tool

    A shallow embedding of the connection module ([createConnection] and
    the [Connection] class) and of [tools/screenshot.ts], with the properties of
    the tool invocation pipeline proved over it.

    Values live in JavaScript: strings, optional fields ([undefined] is
    [None]), truthiness tests and [Array.prototype] methods are written out
    as the source uses them.  Modules that the two files import but do not
    define (the session [Context], the MCP server, the catalogs of
    [tools.js], the helpers of [config.js]) are the fields of a class of
    collaborators. *)

From Stdlib Require Import List String Ascii Bool Arith.
Import ListNotations.
Open Scope string_scope.

Set Implicit Arguments.

(* ================================================================== *)
(** ** JavaScript primitives used by the two source files *)

Module Js.

(** [!!s] for a string: only the empty string is falsy. *)
Definition truthy_string (s : string) : bool := negb (s =? "").

(** [!!x] for an optional string field ([undefined] is falsy). *)
Definition truthy_opt_string (o : option string) : bool :=
  match o with
  | Some s => truthy_string s
  | None => false
  end.

(** [!!x] for an optional boolean field. *)
Definition truthy_opt_bool (o : option bool) : bool :=
  match o with
  | Some b => b
  | None => false
  end.

(** [arr.includes(x)] on an array of strings. *)
Definition array_includes (arr : list string) (x : string) : bool :=
  existsb (fun y => y =? x) arr.

(** [arr.join(sep)] on an array of strings. *)
Definition join (sep : string) (arr : list string) : string :=
  String.concat sep arr.

(** [s.startsWith(p)]. *)
Fixpoint starts_with (p s : string) : bool :=
  match p, s with
  | EmptyString, _ => true
  | String a p', String b s' => (a =? b)%char && starts_with p' s'
  | String _ _, EmptyString => false
  end.

(** [s.includes(sub)]: [sub] occurs somewhere in [s] (case-sensitive). *)
Fixpoint includes (s sub : string) : bool :=
  starts_with sub s ||
  match s with
  | EmptyString => false
  | String _ s' => includes s' sub
  end.

(** The one-character string holding a double quote. *)
Definition dquote : string := String (ascii_of_nat 34) EmptyString.

(** The line feed used by [messages.join('\n')]. *)
Definition newline : string := String (ascii_of_nat 10) EmptyString.

(** What a call can do: return a value or throw one. *)
Inductive completion (E A : Type) : Type :=
| Returned (a : A)
| Threw (e : E).
Arguments Returned {E A} a.
Arguments Threw {E A} e.

End Js.

Import Js.

(** [s] occurs in [t]: the logical reading of [t.includes(s)]. *)
Definition occurs_in (s t : string) : Prop :=
  exists pre post, t = pre ++ s ++ post.

(* ================================================================== *)
(** ** Data model *)

(** The fields of [FullConfig] (config.js) that the two files read. *)
Record FullConfig : Type := {
  vision : option bool;
  capabilities : option (list string);
  keepBrowserOpen : option bool
}.

(** [tool.schema]. *)
Record ToolSchema (InputSchema : Type) : Type := {
  name : string;
  title : string;
  description : string;
  inputSchema : InputSchema;
  type : string
}.

(** A tool as [defineTool] returns it. *)
Record Tool (InputSchema Handler : Type) : Type := {
  capability : string;
  schema : ToolSchema InputSchema;
  clearsModalState : option string;
  handle : Handler
}.

(** An entry of [context.modalStates()]. *)
Record ModalState : Type := {
  ms_type : string;
  ms_description : string
}.

(** One element of [content] in a call result. *)
Record Content : Type := {
  c_type : string;
  c_text : string
}.

(** The result envelope of a tool call; [isError] is absent on success. *)
Record CallToolResult : Type := {
  content : list Content;
  isError : option bool
}.

(** [annotations] of a listed tool. *)
Record Annotations : Type := {
  a_title : string;
  readOnlyHint : bool;
  destructiveHint : bool;
  openWorldHint : bool
}.

(** An entry of the [tools] array that the list handler returns. *)
Record McpTool (JsonSchema : Type) : Type := {
  mt_name : string;
  mt_description : string;
  mt_inputSchema : JsonSchema;
  mt_annotations : Annotations
}.

(* ================================================================== *)
(** ** What the connection module imports *)

(** The collaborators of [createConnection]: the catalogs of tools.js,
    [validateConfig] of config.js, [zodToJsonSchema], the [Context] class
    of context.js and the MCP server.  [Session] is the mutable state
    behind a [Context] object, [Transport] the one behind the server. *)
Class Externals : Type := {
  InputSchema : Type;
  Handler : Type;
  JsonSchema : Type;
  Args : Type;
  Thrown : Type;
  Session : Type;
  Transport : Type;
  BrowserContextFactory : Type;
  (** tools.js *)
  visionTools : list (Tool InputSchema Handler);
  snapshotTools : list (Tool InputSchema Handler);
  (** config.js: [validateConfig] throws or returns nothing. *)
  validateConfig : FullConfig -> option Thrown;
  (** zod-to-json-schema *)
  zodToJsonSchema : InputSchema -> JsonSchema;
  (** The global [String(error)]. *)
  String_ : Thrown -> string;
  (** [new Context(tools, config, browserContextFactory)] *)
  newSession :
    list (Tool InputSchema Handler) -> FullConfig -> BrowserContextFactory ->
    Session;
  (** [context.modalStates()] and [context.modalStatesMarkdown()] *)
  modalStates : Session -> list ModalState;
  modalStatesMarkdown : Session -> list string;
  (** [await context.run(tool, arguments)] *)
  run :
    Tool InputSchema Handler -> option Args -> Session ->
    completion Thrown CallToolResult * Session;
  (** [await context.close()] *)
  contextClose : Session -> completion Thrown unit * Session;
  (** [new McpServer(...)] and [await server.close()] *)
  newTransport : Transport;
  serverClose : Transport -> completion Thrown unit * Transport
}.

(* ================================================================== *)
(** ** The connection module *)

Section ConnectionDefs.

Context {X : Externals}.

Local Abbreviation tool := (Tool InputSchema Handler).

(** [const allTools = config.vision ? visionTools : snapshotTools]. *)
Definition allTools (config : FullConfig) : list tool :=
  if truthy_opt_bool (vision config) then visionTools else snapshotTools.

(** The arrow function handed to [allTools.filter]. *)
Definition enabled (caps : list string) (t : tool) : bool :=
  (capability t =? "core") || array_includes caps (capability t).

(** The [tools] constant of [createConnection]: the filter is applied
    when [config.capabilities && config.capabilities.length > 0]. *)
Definition selectTools (config : FullConfig) : list tool :=
  match capabilities config with
  | Some caps =>
      if (0 <? List.length caps)%nat
      then filter (enabled caps) (allTools config)
      else allTools config
  | None => allTools config
  end.

(** Modelled from the spec: the [Context] object of context.js, which
    keeps the configuration it was built with ([context.config]) next to
    its mutable session state. *)
Record SessionContext : Type := {
  ctx_config : FullConfig;
  ctx_session : Session
}.

(** A [Connection] together with what its two request handlers close
    over: the [tools] constant. *)
Record Connection : Type := {
  tools : list tool;
  server : Transport;
  context : SessionContext
}.

(** Calls that leave the connection module. *)
Inductive Call : Type :=
| CallModalStates
| CallModalStatesMarkdown
| CallRun (t : tool) (a : option Args)
| CallServerClose
| CallContextClose.

(** An async method of the connection: it runs on the connection's
    state, returns or throws, and leaves a log of the outside calls. *)
Definition M (A : Type) : Type :=
  Connection -> completion Thrown A * Connection * list Call.

Definition ret {A} (a : A) : M A := fun c => (Returned a, c, []).

Definition bind {A B} (m : M A) (k : A -> M B) : M B :=
  fun c =>
    match m c with
    | (Returned a, c1, l1) =>
        let '(r, c2, l2) := k a c1 in (r, c2, (l1 ++ l2)%list)
    | (Threw e, c1, l1) => (Threw e, c1, l1)
    end.

(** [try { m } catch (error) { h error }]. *)
Definition try_catch {A} (m : M A) (h : Thrown -> M A) : M A :=
  fun c =>
    match m c with
    | (Returned a, c1, l1) => (Returned a, c1, l1)
    | (Threw e, c1, l1) =>
        let '(r, c2, l2) := h e c1 in (r, c2, (l1 ++ l2)%list)
    end.

Definition with_session (c : Connection) (s : Session) : Connection :=
  {| tools := tools c;
     server := server c;
     context := {| ctx_config := ctx_config (context c); ctx_session := s |} |}.

Definition with_server (c : Connection) (t : Transport) : Connection :=
  {| tools := tools c; server := t; context := context c |}.

Definition ctx_modalStates : M (list ModalState) :=
  fun c => (Returned (modalStates (ctx_session (context c))), c, [CallModalStates]).

Definition ctx_modalStatesMarkdown : M (list string) :=
  fun c =>
    (Returned (modalStatesMarkdown (ctx_session (context c))), c,
     [CallModalStatesMarkdown]).

Definition ctx_run (t : tool) (a : option Args) : M CallToolResult :=
  fun c =>
    let '(r, s) := run t a (ctx_session (context c)) in
    (r, with_session c s, [CallRun t a]).

Definition ctx_close : M unit :=
  fun c =>
    let '(r, s) := contextClose (ctx_session (context c)) in
    (r, with_session c s, [CallContextClose]).

Definition server_close : M unit :=
  fun c =>
    let '(r, t) := serverClose (server c) in
    (r, with_server c t, [CallServerClose]).

End ConnectionDefs.

Declare Scope conn_scope.
Delimit Scope conn_scope with conn.
Notation "x <- m ;; k" := (bind m (fun x => k))
  (at level 61, m at next level, right associativity) : conn_scope.
Notation "m ;;; k" := (bind m (fun _ => k))
  (at level 61, right associativity) : conn_scope.

Section ConnectionHandlers.

Context {X : Externals}.
Open Scope conn_scope.

Local Abbreviation tool := (Tool InputSchema Handler).

(** [request.params] of a call request. *)
Record CallToolRequest : Type := {
  rq_name : string;
  rq_arguments : option Args
}.

(** The list handler: [tools.map(tool => ({ ... }))]. *)
Definition listTools_entry (t : tool) : McpTool JsonSchema :=
  {| mt_name := name (schema t);
     mt_description := description (schema t);
     mt_inputSchema := zodToJsonSchema (inputSchema (schema t));
     mt_annotations :=
       {| a_title := title (schema t);
          readOnlyHint := type (schema t) =? "readOnly";
          destructiveHint := type (schema t) =? "destructive";
          openWorldHint := true |} |}.

Definition listTools : M (list (McpTool JsonSchema)) :=
  fun c => ret (map listTools_entry (tools c)) c.

(** [errorResult(...messages)]. *)
Definition errorResult (messages : list string) : CallToolResult :=
  {| content := [ {| c_type := "text"; c_text := join newline messages |} ];
     isError := Some true |}.

(** [tools.find(tool => tool.schema.name === request.params.name)]. *)
Definition find_tool (ts : list tool) (n : string) : option tool :=
  find (fun t => name (schema t) =? n) ts.

Definition not_found_message (n : string) : string :=
  "Tool " ++ dquote ++ n ++ dquote ++ " not found".

Definition needs_modal_message (n : string) : string :=
  "The tool " ++ dquote ++ n ++ dquote ++
  " can only be used when there is related modal state present.".

Definition unhandled_modal_message (n : string) : string :=
  "Tool " ++ dquote ++ n ++ dquote ++ " does not handle the modal state.".

(** [tool.clearsModalState && !modalStates.includes(tool.clearsModalState)]. *)
Definition modal_state_missing (t : tool) (types : list string) : bool :=
  match clearsModalState t with
  | Some k => truthy_string k && negb (array_includes types k)
  | None => false
  end.

(** [!tool.clearsModalState && modalStates.length]. *)
Definition modal_state_unhandled (t : tool) (types : list string) : bool :=
  negb (truthy_opt_string (clearsModalState t)) &&
  negb (List.length types =? 0)%nat.

(** The call handler. *)
Definition callTool (request : CallToolRequest) : M CallToolResult :=
  fun c =>
    match find_tool (tools c) (rq_name request) with
    | None => ret (errorResult [not_found_message (rq_name request)]) c
    | Some t =>
        (states <- ctx_modalStates ;;
         let types := map ms_type states in
         if modal_state_missing t types then
           md <- ctx_modalStatesMarkdown ;;
           ret (errorResult (needs_modal_message (rq_name request) :: md))
         else if modal_state_unhandled t types then
           md <- ctx_modalStatesMarkdown ;;
           ret (errorResult (unhandled_modal_message (rq_name request) :: md))
         else
           try_catch (ctx_run t (rq_arguments request))
                     (fun error => ret (errorResult [String_ error]))) c
    end.

(** [createConnection]: it throws what [validateConfig] throws. *)
Definition createConnection (config : FullConfig)
    (browserContextFactory : BrowserContextFactory) :
    completion Thrown Connection :=
  let ts := selectTools config in
  match validateConfig config with
  | Some e => Threw e
  | None =>
      Returned
        {| tools := ts;
           server := newTransport;
           context :=
             {| ctx_config := config;
                ctx_session := newSession ts config browserContextFactory |} |}
  end.

(** [Connection.close]. *)
Definition close : M unit :=
  server_close ;;;
  (fun c =>
     if negb (truthy_opt_bool (keepBrowserOpen (ctx_config (context c))))
     then ctx_close c
     else ret tt c).

(** The two requests the server dispatches to the handlers above. *)
Inductive Request : Type :=
| ListToolsRequest
| CallToolRequestOf (request : CallToolRequest).

Inductive Response : Type :=
| ListToolsResponse (r : completion Thrown (list (McpTool JsonSchema)))
| CallToolResponse (r : completion Thrown CallToolResult).

Definition handleRequest (rq : Request) (c : Connection) :
    Response * Connection * list Call :=
  match rq with
  | ListToolsRequest =>
      let '(r, c1, l) := listTools c in (ListToolsResponse r, c1, l)
  | CallToolRequestOf request =>
      let '(r, c1, l) := callTool request c in (CallToolResponse r, c1, l)
  end.

(** The requests of a connection's lifetime, served in order. *)
Fixpoint serve (rqs : list Request) (c : Connection) :
    list Response * Connection * list Call :=
  match rqs with
  | [] => ([], c, [])
  | rq :: rest =>
      let '(r, c1, l1) := handleRequest rq c in
      let '(rs, c2, l2) := serve rest c1 in
      (r :: rs, c2, (l1 ++ l2)%list)
  end.

End ConnectionHandlers.

(* ================================================================== *)
(** ** tools/screenshot.ts *)

Module Screenshot.

(** A JSON value as the zod primitives see it ([typeof]); numbers, arrays
    and objects, which no field of the schema accepts, are [JOther]. *)
Inductive JsValue : Type :=
| JUndefined
| JNull
| JBoolean (b : bool)
| JString (s : string)
| JOther.

(** The five keys of an argument object that [z.object] reads (an absent
    key reads as [undefined]; other keys are stripped). *)
Record RawArgs : Type := {
  a_raw : JsValue;
  a_filename : JsValue;
  a_fullPage : JsValue;
  a_element : JsValue;
  a_ref : JsValue
}.

(** [z.infer<typeof screenshotSchema>]. *)
Record Params : Type := {
  raw : option bool;
  filename : string;
  fullPage : option bool;
  element : option string;
  ref : option string
}.

Inductive ZodIssue : Type :=
| InvalidType (path : list string) (expected : string)
| Custom (message : string) (path : list string).

(** [z.string()] at key [k]. *)
Definition z_string (k : string) (v : JsValue) : ZodIssue + string :=
  match v with
  | JString s => inr s
  | _ => inl (InvalidType [k] "string")
  end.

(** [z.string().optional()] at key [k]. *)
Definition z_string_optional (k : string) (v : JsValue) :
    ZodIssue + option string :=
  match v with
  | JUndefined => inr None
  | JString s => inr (Some s)
  | _ => inl (InvalidType [k] "string")
  end.

(** [z.boolean().optional()] at key [k]. *)
Definition z_boolean_optional (k : string) (v : JsValue) :
    ZodIssue + option bool :=
  match v with
  | JUndefined => inr None
  | JBoolean b => inr (Some b)
  | _ => inl (InvalidType [k] "boolean")
  end.

Definition issue_of {A} (r : ZodIssue + A) : list ZodIssue :=
  match r with
  | inl i => [i]
  | inr _ => []
  end.

(** The [z.object({ ... })] part of the schema: every key is checked and
    the issues are collected in declaration order. *)
Definition screenshotObject (a : RawArgs) : list ZodIssue + Params :=
  let r := z_boolean_optional "raw" (a_raw a) in
  let f := z_string "filename" (a_filename a) in
  let p := z_boolean_optional "fullPage" (a_fullPage a) in
  let e := z_string_optional "element" (a_element a) in
  let x := z_string_optional "ref" (a_ref a) in
  match r, f, p, e, x with
  | inr r', inr f', inr p', inr e', inr x' =>
      inr {| raw := r'; filename := f'; fullPage := p';
             element := e'; ref := x' |}
  | _, _, _, _, _ =>
      inl (issue_of r ++ issue_of f ++ issue_of p ++ issue_of e ++
           issue_of x)%list
  end.

(** The predicate of [.refine]: [!!data.element === !!data.ref]. *)
Definition refinement (data : Params) : bool :=
  Bool.eqb (truthy_opt_string (element data)) (truthy_opt_string (ref data)).

Definition refinement_message : string :=
  "Both element and ref must be provided or neither.".

(** [screenshotSchema.safeParse]: the refinement runs on objects that
    passed the field checks. *)
Definition screenshotSchema (a : RawArgs) : list ZodIssue + Params :=
  match screenshotObject a with
  | inl issues => inl issues
  | inr data =>
      if refinement data then inr data
      else inl [Custom refinement_message ["ref"; "element"]]
  end.

(** [playwright.PageScreenshotOptions] as the handler fills it. *)
Record PageScreenshotOptions : Type := {
  o_type : string;
  o_quality : option nat;
  o_scale : string;
  o_path : string;
  o_fullPage : bool
}.

(** What screenshot.ts imports and the objects its handler is given. *)
Class Externals : Type := {
  Thrown : Type;
  HandlerContext : Type;
  Tab : Type;
  PageSnapshot : Type;
  Locator : Type;
  (** [context.currentTabOrDie()], [tab.snapshotOrDie()] *)
  currentTabOrDie : HandlerContext -> completion Thrown Tab;
  snapshotOrDie : Tab -> completion Thrown PageSnapshot;
  (** [context.config], [tab.page.url()] *)
  config : HandlerContext -> FullConfig;
  page_url : Tab -> string;
  (** config.js *)
  standardizedOutputFile : string -> string -> completion Thrown string;
  outputFile : FullConfig -> string -> completion Thrown string;
  (** [snapshot.refLocator({ element, ref })] *)
  refLocator : PageSnapshot -> string -> string -> Locator;
  (** utils.js, javascript.js *)
  generateLocator : Locator -> completion Thrown string;
  formatObject : PageScreenshotOptions -> string
}.

Section Handler.

Context {X : Externals}.

(** The deferred [action] closure. *)
Inductive Action : Type :=
| LocatorScreenshot (l : Locator) (o : PageScreenshotOptions)
| PageScreenshot (t : Tab) (o : PageScreenshotOptions).

Definition action_options (a : Action) : PageScreenshotOptions :=
  match a with
  | LocatorScreenshot _ o => o
  | PageScreenshot _ o => o
  end.

Record ToolResult : Type := {
  code : list string;
  action : Action;
  captureSnapshot : bool;
  waitForNetwork : bool;
  resultOverride : list Content
}.

(** Calls into the file-naming helpers of config.js. *)
Inductive FileCall : Type :=
| CallStandardizedOutputFile (url fileType : string)
| CallOutputFile (cfg : FullConfig) (name : string).

(** The handler's async body: it returns or throws, and logs the
    calls to the file-naming helpers. *)
Definition H (A : Type) : Type := (completion Thrown A * list FileCall)%type.

Definition hret {A} (a : A) : H A := (Returned a, []).

Definition hbind {A B} (m : H A) (k : A -> H B) : H B :=
  match m with
  | (Returned a, l1) => let '(r, l2) := k a in (r, (l1 ++ l2)%list)
  | (Threw e, l1) => (Threw e, l1)
  end.

Definition lift {A} (r : completion Thrown A) : H A := (r, []).

Definition call_standardizedOutputFile (url fileType : string) : H string :=
  (standardizedOutputFile url fileType,
   [CallStandardizedOutputFile url fileType]).

Definition call_outputFile (cfg : FullConfig) (name : string) : H string :=
  (outputFile cfg name, [CallOutputFile cfg name]).

(** The test on line 54. *)
Definition useStandardizedPath (params : Params) : bool :=
  includes (filename params) "screenshot" ||
  includes (filename params) "capture".

Definition fileType_of (params : Params) : string :=
  if truthy_opt_bool (raw params) then "png" else "jpeg".

Definition options_of (params : Params) (fileName : string) :
    PageScreenshotOptions :=
  let fileType := fileType_of params in
  {| o_type := fileType;
     o_quality := if fileType =? "png" then None else Some 50;
     o_scale := "css";
     o_path := fileName;
     o_fullPage := match fullPage params with Some b => b | None => false end |}.

(** The subject of the comment line of [code]. *)
Definition subject (params : Params) : string :=
  if truthy_opt_string (element params) && truthy_opt_string (ref params)
  then match element params with Some e => e | None => "" end
  else if truthy_opt_bool (fullPage params) then "full page"
  else "viewport".

(** [params.element || '']. *)
Definition element_or_empty (params : Params) : string :=
  match element params with
  | Some e => if truthy_string e then e else ""
  | None => ""
  end.

(** [params.ref ? snapshot.refLocator(...) : null]. *)
Definition locator_of (snapshot : PageSnapshot) (params : Params) :
    option Locator :=
  match ref params with
  | Some r =>
      if truthy_string r
      then Some (refLocator snapshot (element_or_empty params) r)
      else None
  | None => None
  end.

Definition handle (context : HandlerContext) (params : Params) :
    H ToolResult :=
  hbind (lift (currentTabOrDie context)) (fun tab =>
  hbind (lift (snapshotOrDie tab)) (fun snapshot =>
  let fileType := fileType_of params in
  hbind (if useStandardizedPath params
         then call_standardizedOutputFile (page_url tab) fileType
         else call_outputFile (config context) (filename params))
        (fun fileName =>
  let options := options_of params fileName in
  let code0 :=
    "// Screenshot " ++ subject params ++ " and save it as " ++ fileName in
  let locator := locator_of snapshot params in
  hbind (match locator with
         | Some l =>
             hbind (lift (generateLocator l)) (fun g =>
             hret ("await page." ++ g ++ ".screenshot(" ++
                   formatObject options ++ ");"))
         | None =>
             hret ("await page.screenshot(" ++ formatObject options ++ ");")
         end)
        (fun code1 =>
  hret {| code := [code0; code1];
          action := match locator with
                    | Some l => LocatorScreenshot l options
                    | None => PageScreenshot tab options
                    end;
          captureSnapshot := true;
          waitForNetwork := false;
          resultOverride :=
            [ {| c_type := "text";
                 c_text := "Screenshot saved to: " ++ fileName |} ] |})))).

End Handler.

End Screenshot.

(* ================================================================== *)
(** ** The life of a connection *)

Section Lifetime.

Context {X : Externals}.

(** One thing that happens to a connection: a request is served, or
    the connection is closed. *)
Inductive step : Connection -> Connection -> Prop :=
| step_request rq c r c' l :
    handleRequest rq c = (r, c', l) -> step c c'
| step_close c r c' l :
    close c = (r, c', l) -> step c c'.

Inductive lifetime : Connection -> Connection -> Prop :=
| lifetime_here c : lifetime c c
| lifetime_later c c1 c2 : step c c1 -> lifetime c1 c2 -> lifetime c c2.

End Lifetime.

(* ================================================================== *)
(** ** A small server to run the definitions on *)

Module Demo.

Definition mk_tool (cap n ttl ty : string) (clears : option string) :
    Tool unit unit :=
  {| capability := cap;
     schema := {| name := n; title := ttl; description := ttl;
                  inputSchema := tt; type := ty |};
     clearsModalState := clears;
     handle := tt |}.

Definition browser_snapshot :=
  mk_tool "core" "browser_snapshot" "Page snapshot" "readOnly" None.
Definition browser_handle_dialog :=
  mk_tool "core" "browser_handle_dialog" "Handle a dialog" "destructive"
          (Some "dialog").
Definition browser_pdf_save :=
  mk_tool "pdf" "browser_pdf_save" "Save as PDF" "readOnly" None.
Definition browser_file_upload :=
  mk_tool "files" "browser_file_upload" "Upload files" "destructive"
          (Some "fileChooser").
Definition browser_screen_capture :=
  mk_tool "core" "browser_screen_capture" "Take a screenshot" "readOnly" None.

Definition render (m : ModalState) : string :=
  "- [" ++ ms_description m ++ "]: " ++ ms_type m.

(** The session is its stack of modal states; running the PDF tool
    fails, running a tool that clears a modal state pops the stack. *)
Definition demo_run (t : Tool unit unit) (a : option unit)
    (s : list ModalState) : completion string CallToolResult * list ModalState :=
  if name (schema t) =? "browser_pdf_save"
  then (Threw "Error: page closed", s)
  else (Returned {| content := [ {| c_type := "text"; c_text := "- Ran" |} ];
                    isError := None |},
        match clearsModalState t with Some _ => tl s | None => s end).

Definition host : Externals :=
  {| InputSchema := unit;
     Handler := unit;
     JsonSchema := unit;
     Args := unit;
     Thrown := string;
     Session := list ModalState;
     Transport := bool;
     BrowserContextFactory := unit;
     visionTools := [browser_screen_capture; browser_handle_dialog];
     snapshotTools :=
       [browser_snapshot; browser_handle_dialog; browser_pdf_save;
        browser_file_upload];
     validateConfig := fun _ => None;
     zodToJsonSchema := fun s => s;
     String_ := fun e => e;
     newSession := fun _ _ _ => [];
     modalStates := fun s => s;
     modalStatesMarkdown := fun s => "### Modal state" :: map render s;
     run := demo_run;
     contextClose := fun _ => (Returned tt, []);
     newTransport := true;
     serverClose := fun _ => (Returned tt, false) |}.

Definition config_default : FullConfig :=
  {| vision := None; capabilities := None; keepBrowserOpen := None |}.

Definition config_pdf : FullConfig :=
  {| vision := Some false; capabilities := Some ["pdf"];
     keepBrowserOpen := Some true |}.

Definition dialog : ModalState :=
  {| ms_type := "dialog"; ms_description := "confirm dialog" |}.

Definition connection_with (s : list ModalState) : @Connection host :=
  {| tools := selectTools (X := host) config_default;
     server := true;
     context := @Build_SessionContext host config_default s |}.

(** A connection configured to keep the browser open. *)
Definition kept_connection : @Connection host :=
  {| tools := selectTools (X := host) config_pdf;
     server := true;
     context := @Build_SessionContext host config_pdf [dialog] |}.

Definition call (n : string) : @CallToolRequest host :=
  {| rq_name := n; rq_arguments := None |}.

(** The collaborators of the screenshot handler: one open tab. *)
Definition shot_host : Screenshot.Externals :=
  {| Screenshot.Thrown := string;
     Screenshot.HandlerContext := FullConfig;
     Screenshot.Tab := string;
     Screenshot.PageSnapshot := unit;
     Screenshot.Locator := string;
     Screenshot.currentTabOrDie := fun _ => Returned "https://example.com/";
     Screenshot.snapshotOrDie := fun _ => Returned tt;
     Screenshot.config := fun c => c;
     Screenshot.page_url := fun t => t;
     Screenshot.standardizedOutputFile :=
       fun url ft => Returned ("/out/" ++ url ++ "." ++ ft);
     Screenshot.outputFile := fun _ n => Returned ("/tmp/" ++ n);
     Screenshot.refLocator := fun _ e r => "aria-ref=" ++ r;
     Screenshot.generateLocator := fun l => Returned ("locator('" ++ l ++ "')");
     Screenshot.formatObject := fun o => "{ path: '" ++ Screenshot.o_path o ++ "' }" |}.

Definition shot_params (f : string) : Screenshot.Params :=
  {| Screenshot.raw := None; Screenshot.filename := f;
     Screenshot.fullPage := None; Screenshot.element := None;
     Screenshot.ref := None |}.

Definition shot_args (e r : Screenshot.JsValue) : Screenshot.RawArgs :=
  {| Screenshot.a_raw := Screenshot.JUndefined;
     Screenshot.a_filename := Screenshot.JString "page.png";
     Screenshot.a_fullPage := Screenshot.JUndefined;
     Screenshot.a_element := e;
     Screenshot.a_ref := r |}.

End Demo.

(* ================================================================== *)
(** ** The screenshot tool as the connection sees it *)

Module ScreenshotTool.

(** The object literal handed to [defineTool] in tools/screenshot.ts,
    over its input schema and its handler; it sets no [clearsModalState]. *)
Definition screenshot (I H : Type) (s : I) (h : H) : Tool I H :=
  {| capability := "core";
     schema :=
       {| name := "browser_take_screenshot";
          title := "Take a screenshot";
          description :=
            "Take a screenshot of the current page. You can't perform actions based on the screenshot, use browser_snapshot for actions.";
          inputSchema := s;
          type := "readOnly" |};
     clearsModalState := None;
     handle := h |}.

End ScreenshotTool.

(* ================================================================== *)
(** ** Reading the log of a call *)

Section LogReading.

Context {X : Externals}.

(** The log entries that are calls of [context.run]. *)
Definition is_run (c : Call) : bool :=
  match c with
  | CallRun _ _ => true
  | _ => false
  end.

(** The log entries that close something. *)
Definition is_close (c : Call) : bool :=
  match c with
  | CallServerClose | CallContextClose => true
  | _ => false
  end.

End LogReading.

(* ================================================================== *)
(** ** A second small server, with the screenshot tool in its catalog *)

Module Studio.

Definition shot : Tool unit unit := ScreenshotTool.screenshot tt tt.

(** Two tools under one name: the second is shadowed by the first. *)
Definition twin_first : Tool unit unit :=
  Demo.mk_tool "core" "browser_twin" "First twin" "readOnly" None.
Definition twin_second : Tool unit unit :=
  Demo.mk_tool "core" "browser_twin" "Second twin" "destructive" None.

Definition host : Externals :=
  {| InputSchema := unit;
     Handler := unit;
     JsonSchema := unit;
     Args := unit;
     Thrown := string;
     Session := list ModalState;
     Transport := bool;
     BrowserContextFactory := unit;
     visionTools := [shot; Demo.browser_handle_dialog];
     snapshotTools :=
       [Demo.browser_snapshot; shot; Demo.browser_handle_dialog;
        Demo.browser_pdf_save; twin_first; twin_second];
     validateConfig :=
       fun c => match capabilities c with
                | Some ("bogus" :: _) => Some "Error: unknown capability"
                | _ => None
                end;
     zodToJsonSchema := fun s => s;
     String_ := fun e => e;
     newSession := fun _ _ _ => [];
     modalStates := fun s => s;
     modalStatesMarkdown := fun s => "### Modal state" :: map Demo.render s;
     run := Demo.demo_run;
     contextClose := fun _ => (Returned tt, []);
     newTransport := true;
     serverClose := fun _ => (Returned tt, false) |}.

Definition config_keep : FullConfig :=
  {| vision := None; capabilities := Some ["pdf"; "files"];
     keepBrowserOpen := Some true |}.

Definition config_files : FullConfig :=
  {| vision := None; capabilities := Some ["files"];
     keepBrowserOpen := None |}.

Definition connection_of (config : FullConfig) (s : list ModalState) :
    @Connection host :=
  {| tools := selectTools (X := host) config;
     server := true;
     context := @Build_SessionContext host config s |}.

Definition call (n : string) : @CallToolRequest host :=
  @Build_CallToolRequest host n (Some tt).

(** Screenshot arguments asking for one element. *)
Definition element_args : Screenshot.RawArgs :=
  {| Screenshot.a_raw := Screenshot.JBoolean true;
     Screenshot.a_filename := Screenshot.JString "button.png";
     Screenshot.a_fullPage := Screenshot.JUndefined;
     Screenshot.a_element := Screenshot.JString "Submit button";
     Screenshot.a_ref := Screenshot.JString "e7" |}.

Definition element_params : Screenshot.Params :=
  {| Screenshot.raw := Some true; Screenshot.filename := "button.png";
     Screenshot.fullPage := None;
     Screenshot.element := Some "Submit button";
     Screenshot.ref := Some "e7" |}.

(** Screenshot arguments without a file name. *)
Definition nameless_args : Screenshot.RawArgs :=
  {| Screenshot.a_raw := Screenshot.JUndefined;
     Screenshot.a_filename := Screenshot.JUndefined;
     Screenshot.a_fullPage := Screenshot.JUndefined;
     Screenshot.a_element := Screenshot.JUndefined;
     Screenshot.a_ref := Screenshot.JUndefined |}.

(** Collaborators of the screenshot handler with no open tab. *)
Definition tabless_host : Screenshot.Externals :=
  {| Screenshot.Thrown := string;
     Screenshot.HandlerContext := FullConfig;
     Screenshot.Tab := string;
     Screenshot.PageSnapshot := unit;
     Screenshot.Locator := string;
     Screenshot.currentTabOrDie := fun _ => Threw "Error: No current tab";
     Screenshot.snapshotOrDie := fun _ => Returned tt;
     Screenshot.config := fun c => c;
     Screenshot.page_url := fun t => t;
     Screenshot.standardizedOutputFile :=
       fun url ft => Returned ("/out/" ++ url ++ "." ++ ft);
     Screenshot.outputFile := fun _ n => Returned ("/tmp/" ++ n);
     Screenshot.refLocator := fun _ e r => "aria-ref=" ++ r;
     Screenshot.generateLocator := fun l => Returned l;
     Screenshot.formatObject := fun o => Screenshot.o_path o |}.

End Studio.

(* ================================================================== *)
(** * Properties *)

(** ** JavaScript primitives *)

Lemma truthy_string_true (s : string) : truthy_string s = true <-> s <> "".
Proof.
  unfold truthy_string. rewrite negb_true_iff.
  destruct (String.eqb_spec s ""); split; congruence.
Qed.

Lemma array_includes_In (arr : list string) (x : string) :
  array_includes arr x = true <-> In x arr.
Proof.
  unfold array_includes. rewrite existsb_exists. split.
  - intros [y [Hy Heq]]. apply String.eqb_eq in Heq. now subst.
  - intros Hx. exists x. split; [assumption | apply String.eqb_refl].
Qed.

Lemma array_includes_not_In (arr : list string) (x : string) :
  array_includes arr x = false <-> ~ In x arr.
Proof.
  rewrite <- array_includes_In. destruct (array_includes arr x); split;
    congruence.
Qed.

Lemma starts_with_spec (p s : string) :
  starts_with p s = true <-> exists t, s = p ++ t.
Proof.
  revert s. induction p as [| a p IH]; intros s; simpl.
  - split; [intros _; now exists s | reflexivity].
  - destruct s as [| b s].
    + split; [discriminate | intros [t Ht]; discriminate].
    + rewrite andb_true_iff, IH. split.
      * intros [Hab [t Ht]]. apply Ascii.eqb_eq in Hab. subst. now exists t.
      * intros [t Ht]. injection Ht as -> ->. split.
        -- apply Ascii.eqb_refl.
        -- now exists t.
Qed.

Lemma includes_spec (s sub : string) :
  includes s sub = true <-> occurs_in sub s.
Proof.
  unfold occurs_in. induction s as [| a s IH].
  - simpl. rewrite orb_false_r, starts_with_spec. split.
    + intros [t Ht]. now exists "", t.
    + intros [pre [post H]]. destruct pre; [| discriminate]. now exists post.
  - simpl. rewrite orb_true_iff, starts_with_spec, IH. split.
    + intros [[t Ht] | [pre [post H]]].
      * now exists "", t.
      * exists (String a pre), post. simpl. now rewrite H.
    + intros [pre [post H]]. destruct pre as [| b pre].
      * left. now exists post.
      * right. simpl in H. injection H as _ H. now exists pre, post.
Qed.

Lemma includes_false (s sub : string) :
  includes s sub = false <-> ~ occurs_in sub s.
Proof.
  rewrite <- includes_spec. destruct (includes s sub); split; congruence.
Qed.

Lemma string_app_assoc (a b c : string) : (a ++ b) ++ c = a ++ (b ++ c).
Proof. induction a; simpl; congruence. Qed.

Lemma string_app_empty_r (a : string) : a ++ "" = a.
Proof. induction a; simpl; congruence. Qed.

Lemma occurs_in_prefix (s t : string) : occurs_in s (s ++ t).
Proof. now exists "", t. Qed.

Lemma occurs_in_self (s : string) : occurs_in s s.
Proof. exists "", "". simpl. now rewrite string_app_empty_r. Qed.

Lemma occurs_in_app_r (s a t : string) : occurs_in s t -> occurs_in s (a ++ t).
Proof.
  intros [pre [post H]]. exists (a ++ pre), post.
  now rewrite H, string_app_assoc.
Qed.

Lemma occurs_in_app_l (s t b : string) : occurs_in s t -> occurs_in s (t ++ b).
Proof.
  intros [pre [post H]]. exists pre, (post ++ b).
  now rewrite H, !string_app_assoc.
Qed.

(** The first element of a joined array starts the result. *)
Lemma join_cons (sep x : string) (l : list string) :
  exists rest, join sep (x :: l) = x ++ rest.
Proof.
  destruct l as [| y l]; simpl.
  - exists "". now rewrite string_app_empty_r.
  - now eexists.
Qed.

(** Every element of a joined array occurs in the result. *)
Lemma occurs_in_join (sep x : string) (l : list string) :
  In x l -> occurs_in x (join sep l).
Proof.
  induction l as [| y l IH]; intros Hin; [contradiction |].
  destruct Hin as [-> | Hin].
  - destruct (join_cons sep x l) as [rest ->]. apply occurs_in_prefix.
  - destruct l as [| z l]; [contradiction |].
    change (join sep (y :: z :: l)) with (y ++ sep ++ join sep (z :: l)).
    now apply occurs_in_app_r, occurs_in_app_r, IH.
Qed.

(* ================================================================== *)
(** ** Tool selection *)

Section SelectionProps.

Context {X : Externals}.

Local Abbreviation tool := (Tool InputSchema Handler).

Lemma enabled_spec (caps : list string) (t : tool) :
  enabled caps t = true <->
  capability t = "core" \/ In (capability t) caps.
Proof.
  unfold enabled.
  now rewrite orb_true_iff, String.eqb_eq, array_includes_In.
Qed.

(** C1: the active tool set.  With a non-empty allow-list [L] it holds
    exactly the tools of the chosen catalog (the vision catalog when
    [config.vision] is truthy, the snapshot catalog otherwise) whose
    capability is "core" or a member of [L]; with an absent or empty
    allow-list it is the whole chosen catalog. *)
Theorem selectTools_exact (config : FullConfig) :
  let catalog :=
    if truthy_opt_bool (vision config) then visionTools else snapshotTools in
  (forall L, capabilities config = Some L -> L <> [] ->
     forall t : tool,
       In t (selectTools config) <->
       In t catalog /\ (capability t = "core" \/ In (capability t) L)) /\
  (capabilities config = None \/ capabilities config = Some [] ->
     selectTools config = catalog).
Proof.
  unfold selectTools, allTools. split.
  - intros L HL Hne t. rewrite HL.
    destruct L as [| x L]; [congruence |]. cbn [List.length Nat.ltb Nat.leb].
    now rewrite filter_In, enabled_spec.
  - intros [H | H]; rewrite H; reflexivity.
Qed.

(** Selection keeps the catalog's tools in their declaration order. *)
Lemma selectTools_incl (config : FullConfig) :
  incl (selectTools config) (allTools config).
Proof.
  unfold selectTools. destruct (capabilities config) as [caps |].
  - destruct (0 <? List.length caps)%nat.
    + apply incl_filter.
    + apply incl_refl.
  - apply incl_refl.
Qed.

End SelectionProps.

Lemma selectTools_exact_witness :
  In Demo.browser_pdf_save (selectTools (X := Demo.host) Demo.config_pdf) /\
  ~ In Demo.browser_file_upload (selectTools (X := Demo.host) Demo.config_pdf) /\
  selectTools (X := Demo.host) Demo.config_default = snapshotTools.
Proof.
  pose proof (selectTools_exact (X := Demo.host) Demo.config_pdf) as [Hsel _].
  pose proof (selectTools_exact (X := Demo.host) Demo.config_default) as [_ Hall].
  assert (Hne : ["pdf"] <> @nil string) by discriminate.
  split; [| split].
  - apply (Hsel ["pdf"] eq_refl Hne). split.
    + simpl. auto.
    + right. simpl. auto.
  - intros Hin. apply (Hsel ["pdf"] eq_refl Hne) in Hin.
    destruct Hin as [_ [Hcore | [Hpdf | []]]]; discriminate.
  - apply Hall. left. reflexivity.
Defined.

(* ================================================================== *)
(** ** The call handler *)

Section CallProps.

Context {X : Externals}.

Local Abbreviation tool := (Tool InputSchema Handler).

Lemma find_tool_none (ts : list tool) (n : string) :
  ~ In n (map (fun t => name (schema t)) ts) -> find_tool ts n = None.
Proof.
  induction ts as [| t ts IH]; intros Hn; [reflexivity |].
  simpl in *. destruct (String.eqb_spec (name (schema t)) n) as [He | _].
  - exfalso. auto.
  - apply IH. auto.
Qed.

Lemma find_tool_some (ts : list tool) (n : string) (t : tool) :
  find_tool ts n = Some t -> In t ts /\ name (schema t) = n.
Proof.
  intros H. apply find_some in H. now rewrite String.eqb_eq in H.
Qed.

(** With unique names, every tool of the set is the one its name
    resolves to. *)
Lemma find_tool_unique (ts : list tool) (t : tool) :
  NoDup (map (fun t => name (schema t)) ts) -> In t ts ->
  find_tool ts (name (schema t)) = Some t.
Proof.
  induction ts as [| u ts IH]; intros Hnd Hin; [contradiction |].
  simpl in *. inversion Hnd as [| ? ? Hu Hnd']; subst.
  destruct Hin as [-> | Hin].
  - now rewrite String.eqb_refl.
  - destruct (String.eqb_spec (name (schema u)) (name (schema t))) as [He | _].
    + exfalso. apply Hu. rewrite He.
      exact (in_map (fun t => name (schema t)) _ _ Hin).
    + now apply IH.
Qed.

(** C4: a name that resolves to no tool of the active set gets the
    error envelope with the text [Tool "N" not found]; the call returns
    (nothing is thrown), and neither the session nor the executor is
    touched. *)
Theorem callTool_not_found (c : Connection) (N : string) (a : option Args) :
  ~ In N (map (fun t => name (schema t)) (tools c)) ->
  callTool {| rq_name := N; rq_arguments := a |} c =
  (Returned
     {| content :=
          [ {| c_type := "text";
               c_text := "Tool " ++ dquote ++ N ++ dquote ++ " not found" |} ];
        isError := Some true |},
   c, []).
Proof.
  intros Hn. unfold callTool. cbn [rq_name].
  rewrite find_tool_none by assumption. reflexivity.
Qed.

Lemma callTool_found (c : Connection) (request : CallToolRequest) (T : tool) :
  find_tool (tools c) (rq_name request) = Some T ->
  callTool request c =
  (let types := map ms_type (modalStates (ctx_session (context c))) in
   let md := modalStatesMarkdown (ctx_session (context c)) in
   if modal_state_missing T types then
     (Returned (errorResult (needs_modal_message (rq_name request) :: md)), c,
      [CallModalStates; CallModalStatesMarkdown])
   else if modal_state_unhandled T types then
     (Returned (errorResult (unhandled_modal_message (rq_name request) :: md)),
      c, [CallModalStates; CallModalStatesMarkdown])
   else
     match run T (rq_arguments request) (ctx_session (context c)) with
     | (Returned r, s) =>
         (Returned r, with_session c s,
          [CallModalStates; CallRun T (rq_arguments request)])
     | (Threw e, s) =>
         (Returned (errorResult [String_ e]), with_session c s,
          [CallModalStates; CallRun T (rq_arguments request)])
     end).
Proof.
  intros Hf. unfold callTool. rewrite Hf.
  unfold bind, ctx_modalStates, ctx_modalStatesMarkdown, ret, try_catch,
    ctx_run. cbn zeta.
  destruct (modal_state_missing T _); [reflexivity |].
  destruct (modal_state_unhandled T _); [reflexivity |].
  destruct (run T _ _) as [[r | e] s]; cbn; reflexivity.
Qed.

Lemma errorResult_text (msg : string) (md : list string) :
  occurs_in msg (join newline (msg :: md)) /\
  Forall (fun line => occurs_in line (join newline (msg :: md))) md.
Proof.
  split.
  - apply occurs_in_join. now left.
  - apply Forall_forall. intros line Hin. apply occurs_in_join. now right.
Qed.

(** C2: a tool that clears modal states of kind [K] (a set, that is
    truthy, [clearsModalState]) called while no modal state of kind [K]
    is present: the call returns an error result whose text is the
    rejection message followed by the rendered modal states, one per
    line; [context.run] is not called and the connection is unchanged. *)
Theorem callTool_requires_modal_state
    (c : Connection) (request : CallToolRequest) (T : tool) (K : string) :
  find_tool (tools c) (rq_name request) = Some T ->
  clearsModalState T = Some K -> K <> "" ->
  ~ In K (map ms_type (modalStates (ctx_session (context c)))) ->
  let message :=
    "The tool " ++ dquote ++ rq_name request ++ dquote ++
    " can only be used when there is related modal state present." in
  let rendered := modalStatesMarkdown (ctx_session (context c)) in
  exists text log,
    callTool request c =
    (Returned {| content := [ {| c_type := "text"; c_text := text |} ];
                 isError := Some true |}, c, log) /\
    text = join newline (message :: rendered) /\
    occurs_in message text /\
    Forall (fun line => occurs_in line text) rendered /\
    (forall t a, ~ In (CallRun t a) log).
Proof.
  intros Hf HK Hne Hnot message rendered.
  exists (join newline (message :: rendered)),
    [CallModalStates; CallModalStatesMarkdown].
  rewrite callTool_found with (T := T) by assumption. cbn zeta.
  unfold modal_state_missing. rewrite HK.
  apply truthy_string_true in Hne. apply array_includes_not_In in Hnot.
  rewrite Hne, Hnot. cbn [andb negb].
  destruct (errorResult_text message rendered) as [Hm Hr].
  repeat split; try assumption.
  intros t a [H | [H | []]]; discriminate.
Qed.

(** C3: a tool without a (truthy) [clearsModalState] called while some
    modal state is present: the call returns an error result whose text
    says that the tool does not handle the modal state, followed by the
    rendered modal states; [context.run] is not called and the
    connection is unchanged. *)
Theorem callTool_blocked_by_modal_state
    (c : Connection) (request : CallToolRequest) (T : tool) :
  find_tool (tools c) (rq_name request) = Some T ->
  truthy_opt_string (clearsModalState T) = false ->
  modalStates (ctx_session (context c)) <> [] ->
  let message :=
    "Tool " ++ dquote ++ rq_name request ++ dquote ++
    " does not handle the modal state." in
  let rendered := modalStatesMarkdown (ctx_session (context c)) in
  exists text log,
    callTool request c =
    (Returned {| content := [ {| c_type := "text"; c_text := text |} ];
                 isError := Some true |}, c, log) /\
    text = join newline (message :: rendered) /\
    occurs_in "does not handle the modal state" text /\
    Forall (fun line => occurs_in line text) rendered /\
    (forall t a, ~ In (CallRun t a) log).
Proof.
  intros Hf Hunset Hstates message rendered.
  exists (join newline (message :: rendered)),
    [CallModalStates; CallModalStatesMarkdown].
  rewrite callTool_found with (T := T) by assumption. cbn zeta.
  assert (Hmiss : modal_state_missing T
            (map ms_type (modalStates (ctx_session (context c)))) = false).
  { unfold modal_state_missing. unfold truthy_opt_string in Hunset.
    destruct (clearsModalState T); [now rewrite Hunset | reflexivity]. }
  assert (Hunh : modal_state_unhandled T
            (map ms_type (modalStates (ctx_session (context c)))) = true).
  { unfold modal_state_unhandled. rewrite Hunset, length_map.
    destruct (modalStates (ctx_session (context c))); [congruence |].
    reflexivity. }
  rewrite Hmiss, Hunh.
  destruct (errorResult_text message rendered) as [Hm Hr].
  repeat split; try assumption.
  - destruct (join_cons newline message rendered) as [rest ->].
    apply occurs_in_app_l. unfold message.
    do 4 apply occurs_in_app_r.
    exists " ", ".". reflexivity.
  - intros t a [H | [H | []]]; discriminate.
Qed.

End CallProps.

Section BoundaryProps.

Context {X : Externals}.

Local Abbreviation tool := (Tool InputSchema Handler).

(** C5: nothing is thrown out of the call handler, and when the
    executor [context.run] is called and throws [E], the call returns
    the error result whose single text content is [String(E)]. *)
Theorem callTool_catches (c : Connection) (request : CallToolRequest) :
  (exists r c' log, callTool request c = (Returned r, c', log)) /\
  (forall (T : tool) (a : option Args) (E : Thrown) (s' : Session),
     In (CallRun T a) (snd (callTool request c)) ->
     run T a (ctx_session (context c)) = (Threw E, s') ->
     callTool request c =
     (Returned {| content := [ {| c_type := "text"; c_text := String_ E |} ];
                  isError := Some true |},
      with_session c s', [CallModalStates; CallRun T a])).
Proof.
  destruct (find_tool (tools c) (rq_name request)) as [T0 |] eqn:Hf.
  - rewrite callTool_found with (T := T0) by assumption. cbn zeta.
    destruct (modal_state_missing T0 _).
    { split; [now eexists _, _, _ |].
      intros T a E s' [H | [H | []]]; discriminate. }
    destruct (modal_state_unhandled T0 _).
    { split; [now eexists _, _, _ |].
      intros T a E s' [H | [H | []]]; discriminate. }
    destruct (run T0 (rq_arguments request) (ctx_session (context c)))
      as [[r | e] s] eqn:Hrun.
    + split; [now eexists _, _, _ |].
      intros T a E s' [H | [H | []]]; [discriminate |].
      injection H as <- <-. rewrite Hrun. discriminate.
    + split; [now eexists _, _, _ |].
      intros T a E s' [H | [H | []]]; [discriminate |].
      injection H as <- <-. rewrite Hrun. intros [= <- <-]. reflexivity.
  - unfold callTool. rewrite Hf. split; [now eexists _, _, _ |].
    intros T a E s' [].
Qed.

(** C6: the list handler returns one entry per tool of the active set,
    in order, carrying the tool's name, description and serialized input
    schema, and annotations with the tool's title, [readOnlyHint] true
    exactly for type "readOnly", [destructiveHint] true exactly for type
    "destructive", and [openWorldHint] true. *)
Theorem listTools_entries (c : Connection) :
  exists entries,
    listTools c = (Returned entries, c, []) /\
    Forall2
      (fun (t : tool) (e : McpTool JsonSchema) =>
         mt_name e = name (schema t) /\
         mt_description e = description (schema t) /\
         mt_inputSchema e = zodToJsonSchema (inputSchema (schema t)) /\
         a_title (mt_annotations e) = title (schema t) /\
         (readOnlyHint (mt_annotations e) = true <->
          type (schema t) = "readOnly") /\
         (destructiveHint (mt_annotations e) = true <->
          type (schema t) = "destructive") /\
         openWorldHint (mt_annotations e) = true)
      (tools c) entries.
Proof.
  exists (map listTools_entry (tools c)). split; [reflexivity |].
  induction (tools c) as [| t ts IH]; constructor; [| exact IH].
  cbn. repeat split; try apply String.eqb_eq; try reflexivity;
    intros H; now apply String.eqb_eq.
Qed.

(** C7: [close] closes the server first and the context only after it,
    and with a truthy [keepBrowserOpen] the server is all it closes.
    The server it leaves is the one [server.close] produced, whatever
    happens next; the context is closed on the session as it stood, and
    only once [server.close] has returned. *)
Theorem close_order (c : Connection) :
  let keep := truthy_opt_bool (keepBrowserOpen (ctx_config (context c))) in
  forall r c' log, close c = (r, c', log) ->
    server c' = snd (serverClose (server c)) /\
    (log = [CallServerClose] \/ log = [CallServerClose; CallContextClose]) /\
    (keep = true ->
       log = [CallServerClose] /\
       ctx_session (context c') = ctx_session (context c)) /\
    (keep = false ->
       forall t, serverClose (server c) = (Returned tt, t) ->
         log = [CallServerClose; CallContextClose] /\
         (r, ctx_session (context c')) =
         contextClose (ctx_session (context c))) /\
    (forall e t, serverClose (server c) = (Threw e, t) ->
       r = Threw e /\ log = [CallServerClose] /\
       ctx_session (context c') = ctx_session (context c)).
Proof.
  intros keep r c' log. unfold close, bind, server_close, ctx_close, ret.
  destruct (serverClose (server c)) as [[[] | e] t] eqn:Hs.
  - cbn [with_server context ctx_config ctx_session]. fold keep.
    destruct keep; cbn [negb].
    + intros [= <- <- <-]. cbn. repeat split; auto; try discriminate.
    + destruct (contextClose (ctx_session (context c))) as [rc s] eqn:Hc.
      intros [= <- <- <-]. cbn. repeat split; auto; try discriminate.
  - intros [= <- <- <-]. cbn. repeat split; auto; try discriminate.
    congruence.
Qed.

(** *** The tool set over a connection's lifetime *)

Lemma callTool_tools (request : CallToolRequest) (c : Connection) :
  tools (snd (fst (callTool request c))) = tools c.
Proof.
  destruct (find_tool (tools c) (rq_name request)) as [T |] eqn:Hf.
  - rewrite callTool_found with (T := T) by assumption. cbn zeta.
    destruct (modal_state_missing T _); [reflexivity |].
    destruct (modal_state_unhandled T _); [reflexivity |].
    destruct (run T _ _) as [[r | e] s]; reflexivity.
  - unfold callTool. now rewrite Hf.
Qed.

Lemma step_tools (c c' : Connection) : step c c' -> tools c' = tools c.
Proof.
  intros [rq c0 r c1 l H | c0 r c1 l H].
  - destruct rq as [| request]; cbn in H.
    + injection H as _ <- _. reflexivity.
    + pose proof (callTool_tools request c0) as Ht.
      destruct (callTool request c0) as [[r0 c2] l0].
      injection H as _ <- _. exact Ht.
  - revert H. unfold close, bind, server_close, ctx_close, ret.
    destruct (serverClose (server c0)) as [[[] | e] t].
    + cbn [with_server context ctx_config ctx_session].
      destruct (negb _).
      * destruct (contextClose _) as [rc s]. intros [= _ <- _]. reflexivity.
      * intros [= _ <- _]. reflexivity.
    + intros [= _ <- _]. reflexivity.
Qed.

Lemma lifetime_tools (c c' : Connection) :
  lifetime c c' -> tools c' = tools c.
Proof.
  induction 1 as [c | c c1 c2 Hstep _ IH]; [reflexivity |].
  rewrite IH. now apply step_tools.
Qed.

(** Serving requests is a walk along [step]. *)
Lemma serve_lifetime (rqs : list Request) (c : Connection) :
  lifetime c (snd (fst (serve rqs c))).
Proof.
  revert c. induction rqs as [| rq rqs IH]; intros c; cbn.
  - constructor.
  - destruct (handleRequest rq c) as [[r c1] l1] eqn:Hh.
    specialize (IH c1). destruct (serve rqs c1) as [[rs c2] l2]. cbn in *.
    econstructor; [| exact IH]. econstructor. exact Hh.
Qed.

(** C8: the active tool set is the one computed by [createConnection]
    at every point of the connection's lifetime, so the list handler
    answers the same at every point, and two consecutive list requests
    get identical answers. *)
Theorem tools_fixed_for_lifetime
    (config : FullConfig) (f : BrowserContextFactory) (c : Connection) :
  createConnection config f = Returned c ->
  forall c', lifetime c c' ->
    tools c' = selectTools config /\
    fst (fst (listTools c')) = fst (fst (listTools c)) /\
    exists out,
      serve [ListToolsRequest; ListToolsRequest] c' =
      ([ListToolsResponse (Returned out); ListToolsResponse (Returned out)],
       c', []).
Proof.
  intros Hc c' Hl. apply lifetime_tools in Hl.
  assert (Ht : tools c = selectTools config).
  { unfold createConnection in Hc.
    destruct (validateConfig config); [discriminate |].
    injection Hc as <-. reflexivity. }
  split; [congruence |]. split.
  - unfold listTools, ret. cbn. now rewrite Hl.
  - eexists. reflexivity.
Qed.

End BoundaryProps.

(* ================================================================== *)
(** ** The screenshot tool *)

Module ScreenshotProps.

Import Screenshot.

Section HandlerProps.

Context {X : Externals}.

Lemma useStandardizedPath_spec (params : Params) :
  useStandardizedPath params = true <->
  occurs_in "screenshot" (filename params) \/
  occurs_in "capture" (filename params).
Proof.
  unfold useStandardizedPath. now rewrite orb_true_iff, !includes_spec.
Qed.

(** The handler past its two [OrDie] calls, by the outcome [r] of the
    file-naming call [fc] it makes. *)
Lemma handle_cases (context : HandlerContext) (params : Params)
    (tab : Tab) (snapshot : PageSnapshot) :
  currentTabOrDie context = Returned tab ->
  snapshotOrDie tab = Returned snapshot ->
  let '(r, fc) :=
    if useStandardizedPath params
    then (standardizedOutputFile (page_url tab) (fileType_of params),
          CallStandardizedOutputFile (page_url tab) (fileType_of params))
    else (outputFile (config context) (filename params),
          CallOutputFile (config context) (filename params)) in
  snd (handle context params) = [fc] /\
  match r with
  | Threw e => fst (handle context params) = Threw e
  | Returned p =>
      (forall res, fst (handle context params) = Returned res ->
         o_path (action_options (action res)) = p /\
         resultOverride res =
         [ {| c_type := "text"; c_text := "Screenshot saved to: " ++ p |} ]) /\
      (match locator_of snapshot params with
       | Some l => exists g, generateLocator l = Returned g
       | None => True
       end -> exists res, fst (handle context params) = Returned res)
  end.
Proof.
  intros Htab Hsnap. unfold handle. rewrite Htab. cbn [lift hbind].
  rewrite Hsnap. cbn [lift hbind].
  unfold call_standardizedOutputFile, call_outputFile.
  destruct (useStandardizedPath params);
    [destruct (standardizedOutputFile _ _) as [p | e]
    | destruct (outputFile _ _) as [p | e]];
    cbn [hbind]; try (split; reflexivity);
    (destruct (locator_of snapshot params) as [l |];
     [destruct (generateLocator l) as [g | e] |]; cbn;
     (split; [reflexivity |]); split;
     [ intros res [= <-]; split; reflexivity
     | intros _; eexists; reflexivity
     | intros res H; discriminate
     | intros [g H]; discriminate
     | intros res [= <-]; split; reflexivity
     | intros _; eexists; reflexivity ]).
Qed.

(** C9: past the tab and snapshot lookups, a file name that contains
    "screenshot" or "capture" makes the handler call
    [standardizedOutputFile] with the page URL and the file type, and
    nothing else: the caller's file name has no influence on the
    outcome.  The path it saves to is the one that call returns.  A
    file name with neither substring goes through [outputFile] with
    the configuration and the file name as given. *)
Theorem handle_file_name (context : HandlerContext) (params : Params)
    (tab : Tab) (snapshot : PageSnapshot) :
  currentTabOrDie context = Returned tab ->
  snapshotOrDie tab = Returned snapshot ->
  let fileType := if truthy_opt_bool (raw params) then "png" else "jpeg" in
  let named f := occurs_in "screenshot" f \/ occurs_in "capture" f in
  let outcome := fst (handle context params) in
  let calls := snd (handle context params) in
  let saved_to p :=
    (forall res, outcome = Returned res ->
       o_path (action_options (action res)) = p /\
       resultOverride res =
       [ {| c_type := "text"; c_text := "Screenshot saved to: " ++ p |} ]) /\
    (match locator_of snapshot params with
     | Some l => exists g, generateLocator l = Returned g
     | None => True
     end -> exists res, outcome = Returned res) in
  (named (filename params) ->
     calls = [CallStandardizedOutputFile (page_url tab) fileType] /\
     (forall e, standardizedOutputFile (page_url tab) fileType = Threw e ->
        outcome = Threw e) /\
     (forall p, standardizedOutputFile (page_url tab) fileType = Returned p ->
        saved_to p) /\
     (forall f', named f' ->
        handle context
          {| raw := raw params; filename := f'; fullPage := fullPage params;
             element := element params; ref := ref params |} =
        handle context params)) /\
  (~ named (filename params) ->
     calls = [CallOutputFile (config context) (filename params)] /\
     (forall e, outputFile (config context) (filename params) = Threw e ->
        outcome = Threw e) /\
     (forall p, outputFile (config context) (filename params) = Returned p ->
        saved_to p)).
Proof.
  intros Htab Hsnap fileType named outcome calls saved_to.
  pose proof (handle_cases context params Htab Hsnap) as Hc.
  split.
  - intros Hn. apply useStandardizedPath_spec in Hn.
    rewrite Hn in Hc. fold fileType in Hc.
    change (fileType_of params) with fileType in Hc.
    destruct Hc as [Hcalls Hout]. split; [exact Hcalls |].
    split; [| split].
    + intros e He. now rewrite He in Hout.
    + intros p Hp. now rewrite Hp in Hout.
    + intros f' Hf'.
      assert (Hu : useStandardizedPath
                     {| raw := raw params; filename := f';
                        fullPage := fullPage params;
                        element := element params; ref := ref params |}
                   = true)
        by (apply useStandardizedPath_spec; exact Hf').
      unfold handle. rewrite Hn, Hu.
      destruct params as [r f p e x]. reflexivity.
  - intros Hn.
    assert (Hu : useStandardizedPath params = false).
    { destruct (useStandardizedPath params) eqn:Hu; [| reflexivity].
      exfalso. now apply Hn, useStandardizedPath_spec. }
    rewrite Hu in Hc. destruct Hc as [Hcalls Hout]. split; [exact Hcalls |].
    split.
    + intros e He. now rewrite He in Hout.
    + intros p Hp. now rewrite Hp in Hout.
Qed.

End HandlerProps.

(** *** The input schema *)

Lemma screenshotObject_fields (a : RawArgs) (data : Params) :
  screenshotObject a = inr data ->
  z_string_optional "element" (a_element a) = inr (element data) /\
  z_string_optional "ref" (a_ref a) = inr (ref data).
Proof.
  unfold screenshotObject.
  destruct (z_boolean_optional "raw" (a_raw a));
    destruct (z_string "filename" (a_filename a));
    destruct (z_boolean_optional "fullPage" (a_fullPage a));
    destruct (z_string_optional "element" (a_element a));
    destruct (z_string_optional "ref" (a_ref a));
    try discriminate.
  intros [= <-]. split; reflexivity.
Qed.

(** C10, as the code has it: on an argument object whose five fields
    have the types the schema asks for, the schema accepts exactly when
    [element] and [ref] are both truthy (non-empty strings) or both
    falsy (absent or empty); when exactly one is truthy the parse fails
    with the one issue 'Both element and ref must be provided or
    neither.' at path [ref, element]; and whatever the schema accepts,
    and so hands to the handler, has both truthy or both falsy. *)
Theorem screenshotSchema_truthy_rule (a : RawArgs) (data : Params) :
  screenshotObject a = inr data ->
  let e := truthy_opt_string (element data) in
  let r := truthy_opt_string (ref data) in
  (screenshotSchema a = inr data <-> e = r) /\
  (e <> r ->
   screenshotSchema a =
   inl [Custom "Both element and ref must be provided or neither."
               ["ref"; "element"]]) /\
  (forall accepted, screenshotSchema a = inr accepted ->
     accepted = data /\
     truthy_opt_string (element accepted) = truthy_opt_string (ref accepted)).
Proof.
  intros Hobj e r. subst e r. unfold screenshotSchema, refinement.
  rewrite Hobj.
  destruct (truthy_opt_string (element data)) eqn:He,
           (truthy_opt_string (ref data)) eqn:Hr; cbn;
    (split; [split; congruence |]);
    (split; [first [congruence | intros _; reflexivity] |]);
    intros accepted [= <-]; split; congruence.
Qed.

(** C10, as stated, fails on empty strings: with [element] the empty
    string and [ref] "e2" both are present, and the object is rejected;
    with [element] the empty string and no [ref] exactly one is present,
    and the object is accepted. *)
Lemma screenshotSchema_presence_counterexample :
  (a_element (Demo.shot_args (JString "") (JString "e2")) <> JUndefined /\
   a_ref (Demo.shot_args (JString "") (JString "e2")) <> JUndefined /\
   screenshotSchema (Demo.shot_args (JString "") (JString "e2")) =
   inl [Custom "Both element and ref must be provided or neither."
               ["ref"; "element"]]) /\
  (a_element (Demo.shot_args (JString "") JUndefined) <> JUndefined /\
   a_ref (Demo.shot_args (JString "") JUndefined) = JUndefined /\
   screenshotSchema (Demo.shot_args (JString "") JUndefined) =
   inr {| raw := None; filename := "page.png"; fullPage := None;
          element := Some ""; ref := None |}).
Proof.
  cbn. repeat split; discriminate.
Qed.

End ScreenshotProps.

(* ================================================================== *)
(** ** The properties at work on the small server *)

Lemma callTool_not_found_witness :
  callTool (Demo.call "nonexistent") (Demo.connection_with []) =
  (Returned
     {| content :=
          [ {| c_type := "text";
               c_text := "Tool " ++ dquote ++ "nonexistent" ++ dquote ++
                         " not found" |} ];
        isError := Some true |},
   Demo.connection_with [], []).
Proof.
  apply (@callTool_not_found Demo.host (Demo.connection_with [])
           "nonexistent" None).
  cbn. intros [H | [H | [H | [H | []]]]]; discriminate.
Defined.

Lemma callTool_requires_modal_state_witness :
  exists text log,
    callTool (Demo.call "browser_handle_dialog") (Demo.connection_with []) =
    (Returned {| content := [ {| c_type := "text"; c_text := text |} ];
                 isError := Some true |}, Demo.connection_with [], log) /\
    occurs_in "### Modal state" text /\
    (forall t a, ~ In (CallRun t a) log).
Proof.
  destruct (@callTool_requires_modal_state Demo.host
              (Demo.connection_with []) (Demo.call "browser_handle_dialog")
              Demo.browser_handle_dialog "dialog" eq_refl eq_refl)
    as (text & log & Hcall & _ & _ & Hlines & Hrun).
  - discriminate.
  - cbn. tauto.
  - exists text, log. split; [exact Hcall |]. split; [| exact Hrun].
    exact (Forall_inv Hlines).
Defined.

Lemma callTool_blocked_by_modal_state_witness :
  exists text log,
    callTool (Demo.call "browser_snapshot")
             (Demo.connection_with [Demo.dialog]) =
    (Returned {| content := [ {| c_type := "text"; c_text := text |} ];
                 isError := Some true |},
     Demo.connection_with [Demo.dialog], log) /\
    occurs_in "does not handle the modal state" text /\
    (forall t a, ~ In (CallRun t a) log).
Proof.
  destruct (@callTool_blocked_by_modal_state Demo.host
              (Demo.connection_with [Demo.dialog])
              (Demo.call "browser_snapshot")
              Demo.browser_snapshot eq_refl eq_refl)
    as (text & log & Hcall & _ & Hsays & _ & Hrun).
  - discriminate.
  - exists text, log. auto.
Defined.

Lemma callTool_catches_witness :
  callTool (Demo.call "browser_pdf_save") (Demo.connection_with []) =
  (Returned {| content := [ {| c_type := "text";
                               c_text := "Error: page closed" |} ];
               isError := Some true |},
   Demo.connection_with [],
   [CallModalStates; @CallRun Demo.host Demo.browser_pdf_save None]).
Proof.
  apply (proj2 (@callTool_catches Demo.host (Demo.connection_with [])
                  (Demo.call "browser_pdf_save"))
           Demo.browser_pdf_save None "Error: page closed" []).
  - cbn. right. left. reflexivity.
  - reflexivity.
Defined.

Lemma close_order_witness :
  (snd (close Demo.kept_connection) = [@CallServerClose Demo.host] /\
   ctx_session (context (snd (fst (close Demo.kept_connection)))) =
   [Demo.dialog] /\
   server (snd (fst (close Demo.kept_connection))) = false) /\
  (snd (close (Demo.connection_with [Demo.dialog])) =
   [@CallServerClose Demo.host; @CallContextClose Demo.host] /\
   ctx_session
     (context (snd (fst (close (Demo.connection_with [Demo.dialog]))))) =
   [] /\
   server (snd (fst (close (Demo.connection_with [Demo.dialog])))) = false).
Proof.
  split.
  - destruct (close Demo.kept_connection) as [[r c'] log] eqn:Hclose.
    destruct (@close_order Demo.host Demo.kept_connection r c' log Hclose)
      as (Hserver & _ & Hkeep & _).
    destruct (Hkeep eq_refl) as [Hlog Hsession].
    repeat split; [exact Hlog | exact Hsession | exact Hserver].
  - destruct (close (Demo.connection_with [Demo.dialog]))
      as [[r c'] log] eqn:Hclose.
    destruct (@close_order Demo.host (Demo.connection_with [Demo.dialog])
                r c' log Hclose)
      as (Hserver & _ & _ & Hclosed & _).
    destruct (Hclosed eq_refl false eq_refl) as [Hlog Hctx].
    repeat split; [exact Hlog | | exact Hserver].
    cbn in Hctx. now injection Hctx.
Defined.

Lemma tools_fixed_for_lifetime_witness :
  tools (snd (fst (serve [CallToolRequestOf (Demo.call "browser_snapshot");
                          ListToolsRequest]
                         (Demo.connection_with [])))) =
  selectTools (X := Demo.host) Demo.config_default.
Proof.
  apply (@tools_fixed_for_lifetime Demo.host Demo.config_default tt
           (Demo.connection_with []) eq_refl).
  apply serve_lifetime.
Defined.

Lemma handle_file_name_witness :
  snd (Screenshot.handle (X := Demo.shot_host) Demo.config_default
         (Demo.shot_params "my-screenshot.png")) =
  [Screenshot.CallStandardizedOutputFile "https://example.com/" "jpeg"] /\
  snd (Screenshot.handle (X := Demo.shot_host) Demo.config_default
         (Demo.shot_params "page.png")) =
  [Screenshot.CallOutputFile Demo.config_default "page.png"].
Proof.
  split.
  - apply (@ScreenshotProps.handle_file_name Demo.shot_host
             Demo.config_default (Demo.shot_params "my-screenshot.png")
             "https://example.com/" tt eq_refl eq_refl).
    left. exists "my-", ".png". reflexivity.
  - apply (@ScreenshotProps.handle_file_name Demo.shot_host
             Demo.config_default (Demo.shot_params "page.png")
             "https://example.com/" tt eq_refl eq_refl).
    intros H.
    assert (Hu : Screenshot.useStandardizedPath (Demo.shot_params "page.png")
                 = true)
      by (apply ScreenshotProps.useStandardizedPath_spec; exact H).
    discriminate Hu.
Defined.

Lemma screenshotSchema_truthy_rule_witness :
  Screenshot.screenshotSchema
    (Demo.shot_args (Screenshot.JString "") (Screenshot.JString "e2")) =
  inl [Screenshot.Custom "Both element and ref must be provided or neither."
                         ["ref"; "element"]].
Proof.
  apply (@ScreenshotProps.screenshotSchema_truthy_rule
           (Demo.shot_args (Screenshot.JString "") (Screenshot.JString "e2"))
           {| Screenshot.raw := None; Screenshot.filename := "page.png";
              Screenshot.fullPage := None; Screenshot.element := Some "";
              Screenshot.ref := Some "e2" |}
           eq_refl).
  discriminate.
Defined.

(* ================================================================== *)
(** * Further properties *)

(** ** Tool selection *)

Section SelectionMore.

Context {X : Externals}.

Local Abbreviation tool := (Tool InputSchema Handler).

(** Dropping tools from a list keeps its names distinct. *)
Lemma filter_keeps_names_distinct (keep : tool -> bool) (ts : list tool) :
  NoDup (map (fun t : tool => name (schema t)) ts) ->
  NoDup (map (fun t : tool => name (schema t)) (filter keep ts)).
Proof.
  induction ts as [| u ts IH]; cbn; intros Hnd; [constructor |].
  apply NoDup_cons_iff in Hnd. destruct Hnd as [Hfresh Hrest].
  destruct (keep u); cbn; [| auto].
  apply NoDup_cons_iff. split; [| auto].
  intros Hin. apply Hfresh.
  apply in_map_iff in Hin. destruct Hin as (v & Hname & Hv).
  apply filter_In in Hv. rewrite <- Hname.
  exact (in_map (fun t : tool => name (schema t)) ts v (proj1 Hv)).
Qed.

(** X1: a tool of the chosen catalog whose capability is "core" is in
    the active set under every configuration of [capabilities]. *)
Theorem core_tools_always_selected (config : FullConfig) (t : tool) :
  In t (allTools config) -> capability t = "core" ->
  In t (selectTools config).
Proof.
  intros Hin Hcore. unfold selectTools.
  destruct (capabilities config) as [caps |]; [| exact Hin].
  destruct (0 <? List.length caps)%nat; [| exact Hin].
  apply filter_In. split; [exact Hin |].
  unfold enabled. rewrite Hcore. reflexivity.
Qed.

(** X2: when the names of the chosen catalog are pairwise distinct, so
    are the names of the active set: selection never makes a name
    ambiguous. *)
Theorem selectTools_unique_names (config : FullConfig) :
  NoDup (map (fun t : tool => name (schema t)) (allTools config)) ->
  NoDup (map (fun t : tool => name (schema t)) (selectTools config)).
Proof.
  intros Hnd. unfold selectTools.
  destruct (capabilities config) as [caps |]; [| exact Hnd].
  destruct (0 <? List.length caps)%nat; [| exact Hnd].
  now apply filter_keeps_names_distinct.
Qed.

(** X3: growing a non-empty allow-list never removes a tool: with the
    same mode, the active set for [L1] is contained in the one for any
    [L2] that contains [L1]. *)
Theorem selectTools_monotone (c1 c2 : FullConfig) (L1 L2 : list string) :
  truthy_opt_bool (vision c1) = truthy_opt_bool (vision c2) ->
  capabilities c1 = Some L1 -> capabilities c2 = Some L2 ->
  L1 <> [] -> incl L1 L2 ->
  incl (selectTools c1) (selectTools c2).
Proof.
  intros Hv H1 H2 Hne Hincl t. unfold selectTools, allTools.
  rewrite H1, H2, Hv.
  destruct L1 as [| x L1]; [congruence |].
  destruct L2 as [| y L2]; [destruct (Hincl x); now left |].
  cbn [List.length Nat.ltb Nat.leb].
  rewrite !filter_In, !enabled_spec. intros [Hin [Hc | Hc]]; auto.
Qed.

End SelectionMore.

Lemma core_tools_always_selected_witness :
  In Studio.shot (selectTools (X := Studio.host) Studio.config_files).
Proof.
  apply (@core_tools_always_selected Studio.host Studio.config_files
           Studio.shot).
  - cbn. auto.
  - reflexivity.
Defined.

Lemma selectTools_unique_names_witness :
  NoDup (map (fun t => name (schema t))
             (selectTools (X := Demo.host) Demo.config_pdf)).
Proof.
  apply (@selectTools_unique_names Demo.host Demo.config_pdf).
  cbn. repeat constructor; cbn; intuition discriminate.
Defined.

Lemma selectTools_monotone_witness :
  incl (selectTools (X := Studio.host) Studio.config_files)
       (selectTools (X := Studio.host) Studio.config_keep).
Proof.
  apply (@selectTools_monotone Studio.host Studio.config_files
           Studio.config_keep ["files"] ["pdf"; "files"]
           eq_refl eq_refl eq_refl).
  - discriminate.
  - intros x [<- | []]. cbn. auto.
Defined.

(* ================================================================== *)
(** ** The call handler, past the rejections *)

Section CallMore.

Context {X : Externals}.

Local Abbreviation tool := (Tool InputSchema Handler).

(** [tools.find] returns the first tool bearing the name. *)
Lemma find_tool_first (ts : list tool) (n : string) (t : tool) :
  find_tool ts n = Some t ->
  exists pre post,
    ts = (pre ++ t :: post)%list /\ name (schema t) = n /\
    forall u, In u pre -> name (schema u) <> n.
Proof.
  induction ts as [| u ts IH]; [discriminate |]. cbn.
  destruct (String.eqb_spec (name (schema u)) n) as [He | Hne].
  - intros [= <-]. exists [], ts. repeat split; [assumption |].
    intros v [].
  - intros Hf. destruct (IH Hf) as (pre & post & -> & Hn & Hpre).
    exists (u :: pre), post. repeat split; [assumption |].
    intros v [<- | Hv]; auto.
Qed.

Lemma find_tool_listed (ts : list tool) (n : string) :
  In n (map (fun t => name (schema t)) ts) <-> find_tool ts n <> None.
Proof.
  split.
  - intros Hin Hnone. apply in_map_iff in Hin. destruct Hin as [t [Hn Hin]].
    pose proof (find_none _ _ Hnone t Hin) as Hf. cbn in Hf.
    rewrite Hn, String.eqb_refl in Hf. discriminate.
  - intros Hf. destruct (find_tool ts n) as [t |] eqn:Ht; [| congruence].
    apply find_tool_some in Ht. destruct Ht as [Hin <-].
    exact (in_map (fun t => name (schema t)) _ _ Hin).
Qed.

(** The gate lets a call through in two cases. *)
Lemma gate_allows_spec (T : tool) (types : list string) :
  modal_state_missing T types = false /\
  modal_state_unhandled T types = false <->
  (exists K, clearsModalState T = Some K /\ K <> "" /\ In K types) \/
  (truthy_opt_string (clearsModalState T) = false /\ types = []).
Proof.
  unfold modal_state_missing, modal_state_unhandled, truthy_opt_string.
  destruct (clearsModalState T) as [K |].
  - destruct (truthy_string K) eqn:HK; cbn.
    + rewrite negb_false_iff, array_includes_In. split.
      * intros [Hin _]. left. exists K. repeat split; [| assumption].
        now apply truthy_string_true.
      * intros [(K' & [= <-] & _ & Hin) | [Hf _]]; [tauto | discriminate].
    + split.
      * intros [_ Hl]. right. split; [reflexivity |].
        destruct types; [reflexivity | discriminate].
      * intros [(K' & [= <-] & Hne & _) | [_ ->]]; [| tauto].
        apply truthy_string_true in Hne. congruence.
  - cbn. split.
    + intros [_ Hl]. right. split; [reflexivity |].
      destruct types; [reflexivity | discriminate].
    + intros [(K' & Hk & _) | [_ ->]]; [discriminate | tauto].
Qed.

Lemma map_ms_type_nil (l : list ModalState) : map ms_type l = [] <-> l = [].
Proof. destruct l; split; intros H; try reflexivity; discriminate. Qed.

(** X4: the decision table of the gate.  A call whose name resolves to
    [T] reaches [context.run] exactly when [T] clears a kind of modal
    state that is present, or [T] clears none and no modal state is
    present. *)
Theorem callTool_runs_iff (c : Connection) (request : CallToolRequest)
    (T : tool) :
  find_tool (tools c) (rq_name request) = Some T ->
  let states := modalStates (ctx_session (context c)) in
  In (CallRun T (rq_arguments request)) (snd (callTool request c)) <->
  (exists K, clearsModalState T = Some K /\ K <> "" /\
             In K (map ms_type states)) \/
  (truthy_opt_string (clearsModalState T) = false /\ states = []).
Proof.
  intros Hf states. rewrite <- (map_ms_type_nil states).
  rewrite <- gate_allows_spec.
  rewrite callTool_found with (T := T) by assumption. cbn zeta.
  fold states.
  destruct (modal_state_missing T (map ms_type states)).
  { cbn. split; [intros [H | [H | []]]; discriminate | intros [H _]; discriminate]. }
  destruct (modal_state_unhandled T (map ms_type states)).
  { cbn. split; [intros [H | [H | []]]; discriminate | intros [_ H]; discriminate]. }
  destruct (run T _ _) as [[r | e] s]; cbn; split; auto.
Qed.

(** X5: what the executor returns is what the caller gets.  When the
    gate lets the call through and [context.run] returns [r], the call
    returns [r] unchanged, the session is the one [run] left, and [run]
    was called once, with the request's arguments. *)
Theorem callTool_passes_result (c : Connection) (request : CallToolRequest)
    (T : tool) (r : CallToolResult) (s' : Session) :
  find_tool (tools c) (rq_name request) = Some T ->
  (exists K, clearsModalState T = Some K /\ K <> "" /\
             In K (map ms_type (modalStates (ctx_session (context c))))) \/
  (truthy_opt_string (clearsModalState T) = false /\
   modalStates (ctx_session (context c)) = []) ->
  run T (rq_arguments request) (ctx_session (context c)) = (Returned r, s') ->
  callTool request c =
  (Returned r, with_session c s',
   [CallModalStates; CallRun T (rq_arguments request)]).
Proof.
  intros Hf Hgate Hrun.
  rewrite <- (map_ms_type_nil (modalStates _)) in Hgate.
  apply gate_allows_spec in Hgate. destruct Hgate as [Hm Hu].
  rewrite callTool_found with (T := T) by assumption. cbn zeta.
  now rewrite Hm, Hu, Hrun.
Qed.

(** X6: one call, at most one run.  The log of a call holds at most one
    call of [context.run]; it is for the first tool of the active set
    that bears the requested name, so a tool behind another of the same
    name is never run, and it carries the arguments of the request. *)
Theorem callTool_run_calls (c : Connection) (request : CallToolRequest) :
  (List.length (filter is_run (snd (callTool request c))) <= 1)%nat /\
  forall t a,
    In (CallRun t a) (snd (callTool request c)) ->
    a = rq_arguments request /\
    exists pre post,
      tools c = (pre ++ t :: post)%list /\
      name (schema t) = rq_name request /\
      forall u, In u pre -> name (schema u) <> rq_name request.
Proof.
  destruct (find_tool (tools c) (rq_name request)) as [T |] eqn:Hf.
  - rewrite callTool_found with (T := T) by assumption. cbn zeta.
    pose proof (find_tool_first _ _ Hf) as Hfirst.
    destruct (modal_state_missing T _).
    { cbn. split; [auto |]. intros t a [H | [H | []]]; discriminate. }
    destruct (modal_state_unhandled T _).
    { cbn. split; [auto |]. intros t a [H | [H | []]]; discriminate. }
    destruct (run T _ _) as [[r | e] s]; cbn; (split; [auto |]);
      intros t a [H | [H | []]]; try discriminate;
      injection H as <- <-; auto.
  - unfold callTool. rewrite Hf. cbn. split; [auto |]. intros t a [].
Qed.

(** What a call leaves alone. *)
Lemma callTool_keeps (c : Connection) (request : CallToolRequest) :
  tools (snd (fst (callTool request c))) = tools c /\
  server (snd (fst (callTool request c))) = server c /\
  ctx_config (context (snd (fst (callTool request c)))) =
  ctx_config (context c) /\
  (forall k, In k (snd (callTool request c)) -> is_close k = false) /\
  ((forall t a, ~ In (CallRun t a) (snd (callTool request c))) ->
   snd (fst (callTool request c)) = c).
Proof.
  destruct (find_tool (tools c) (rq_name request)) as [T |] eqn:Hf.
  - rewrite callTool_found with (T := T) by assumption. cbn zeta.
    destruct (modal_state_missing T _).
    { cbn. repeat split; auto. intros k [<- | [<- | []]]; reflexivity. }
    destruct (modal_state_unhandled T _).
    { cbn. repeat split; auto. intros k [<- | [<- | []]]; reflexivity. }
    destruct (run T _ _) as [[r | e] s]; cbn; repeat split; auto;
      try (intros k [<- | [<- | []]]; reflexivity);
      intros Hno; exfalso; apply (Hno T (rq_arguments request)); auto.
  - unfold callTool. rewrite Hf. cbn. repeat split; auto. intros k [].
Qed.

(** X7: a call changes nothing but the session.  The tool set, the
    server and the configuration are as before, nothing is closed, and
    a call that does not reach [context.run] leaves the whole connection
    as it was. *)
Theorem callTool_frame (c : Connection) (request : CallToolRequest) :
  let c' := snd (fst (callTool request c)) in
  let log := snd (callTool request c) in
  tools c' = tools c /\
  server c' = server c /\
  ctx_config (context c') = ctx_config (context c) /\
  ~ In CallServerClose log /\ ~ In CallContextClose log /\
  ((forall t a, ~ In (CallRun t a) log) -> c' = c).
Proof.
  cbn zeta. destruct (callTool_keeps c request) as (Ht & Hs & Hc & Hk & Hn).
  repeat split; try assumption.
  - intros Hin. apply Hk in Hin. discriminate.
  - intros Hin. apply Hk in Hin. discriminate.
Qed.

(** X8: discovery and dispatch agree.  A name is among those the list
    handler returns exactly when a call under that name gets as far as
    consulting the modal states; any other name is turned away before
    the session is looked at. *)
Theorem listed_iff_dispatched (c : Connection) (n : string)
    (a : option Args) (entries : list (McpTool JsonSchema)) :
  fst (fst (listTools c)) = Returned entries ->
  In n (map (@mt_name JsonSchema) entries) <->
  In CallModalStates
     (snd (callTool {| rq_name := n; rq_arguments := a |} c)).
Proof.
  intros [= <-]. rewrite map_map. cbn [listTools_entry mt_name].
  rewrite find_tool_listed.
  destruct (find_tool (tools c) n) as [T |] eqn:Hf.
  - rewrite callTool_found with (T := T) by assumption. cbn zeta.
    split; [intros _ | congruence].
    destruct (modal_state_missing T _); [cbn; auto |].
    destruct (modal_state_unhandled T _); [cbn; auto |].
    destruct (run T _ _) as [[r | e] s]; cbn; auto.
  - unfold callTool. cbn [rq_name]. rewrite Hf. cbn. tauto.
Qed.

End CallMore.

(* ================================================================== *)
(** ** Requests, closing and the configuration *)

Section LifetimeMore.

Context {X : Externals}.

Lemma handleRequest_keeps (rq : Request) (c : Connection) :
  server (snd (fst (handleRequest rq c))) = server c /\
  ctx_config (context (snd (fst (handleRequest rq c)))) =
  ctx_config (context c) /\
  forall k, In k (snd (handleRequest rq c)) -> is_close k = false.
Proof.
  destruct rq as [| request]; cbn.
  - repeat split. intros k [].
  - destruct (callTool_keeps c request) as (_ & Hs & Hc & Hk & _).
    destruct (callTool request c) as [[r c1] l]. cbn in *. auto.
Qed.

Lemma serve_keeps (rqs : list Request) (c : Connection) :
  List.length (fst (fst (serve rqs c))) = List.length rqs /\
  server (snd (fst (serve rqs c))) = server c /\
  ctx_config (context (snd (fst (serve rqs c)))) = ctx_config (context c) /\
  forall k, In k (snd (serve rqs c)) -> is_close k = false.
Proof.
  revert c. induction rqs as [| rq rqs IH]; intros c; cbn.
  - repeat split. intros k [].
  - destruct (handleRequest_keeps rq c) as (Hs & Hc & Hk).
    destruct (handleRequest rq c) as [[r c1] l1]. cbn in Hs, Hc, Hk.
    destruct (IH c1) as (Hlen & Hs' & Hc' & Hk').
    destruct (serve rqs c1) as [[rs c2] l2]. cbn in *.
    repeat split; try congruence.
    intros k Hin. apply in_app_or in Hin. destruct Hin; auto.
Qed.

(** X9: serving requests closes nothing.  However many list and call
    requests are served, each gets one response, the server and the
    configuration are as before, and neither [server.close] nor
    [context.close] is called. *)
Theorem serve_never_closes (rqs : list Request) (c : Connection) :
  let responses := fst (fst (serve rqs c)) in
  let c' := snd (fst (serve rqs c)) in
  let log := snd (serve rqs c) in
  List.length responses = List.length rqs /\
  server c' = server c /\
  ctx_config (context c') = ctx_config (context c) /\
  ~ In CallServerClose log /\ ~ In CallContextClose log.
Proof.
  cbn zeta. destruct (serve_keeps rqs c) as (Hl & Hs & Hc & Hk).
  repeat split; try assumption; intros Hin; apply Hk in Hin; discriminate.
Qed.

Lemma close_keeps_config (c : Connection) :
  ctx_config (context (snd (fst (close c)))) = ctx_config (context c).
Proof.
  unfold close, bind, server_close, ctx_close, ret.
  destruct (serverClose (server c)) as [[[] | e] t]; [| reflexivity].
  cbn [with_server context ctx_config ctx_session].
  destruct (negb _); [| reflexivity].
  destruct (contextClose _) as [rc s]. reflexivity.
Qed.

Lemma step_config (c c' : Connection) :
  step c c' -> ctx_config (context c') = ctx_config (context c).
Proof.
  intros [rq c0 r c1 l H | c0 r c1 l H].
  - destruct (handleRequest_keeps rq c0) as (_ & Hc & _).
    now rewrite H in Hc.
  - pose proof (close_keeps_config c0) as Hc. now rewrite H in Hc.
Qed.

Lemma lifetime_config (c c' : Connection) :
  lifetime c c' -> ctx_config (context c') = ctx_config (context c).
Proof.
  induction 1 as [c | c c1 c2 Hstep _ IH]; [reflexivity |].
  rewrite IH. now apply step_config.
Qed.

(** X10: a connection created with a truthy [keepBrowserOpen] never
    closes its context.  At every point of its lifetime [close] calls
    [server.close] and nothing else, and leaves the session as it is. *)
Theorem kept_open_for_lifetime
    (config : FullConfig) (f : BrowserContextFactory) (c : Connection) :
  createConnection config f = Returned c ->
  truthy_opt_bool (keepBrowserOpen config) = true ->
  forall c', lifetime c c' ->
    snd (close c') = [CallServerClose] /\
    ctx_session (context (snd (fst (close c')))) = ctx_session (context c').
Proof.
  intros Hc Hkeep c' Hl. apply lifetime_config in Hl.
  assert (Hcfg : ctx_config (context c) = config).
  { unfold createConnection in Hc.
    destruct (validateConfig config); [discriminate |].
    injection Hc as <-. reflexivity. }
  rewrite Hcfg in Hl.
  unfold close, bind, server_close, ctx_close, ret.
  destruct (serverClose (server c')) as [[[] | e] t]; [| split; reflexivity].
  cbn [with_server context ctx_config ctx_session].
  rewrite Hl, Hkeep. split; reflexivity.
Qed.

End LifetimeMore.

Lemma callTool_runs_iff_witness :
  In (@CallRun Studio.host Demo.browser_handle_dialog (Some tt))
     (snd (callTool (Studio.call "browser_handle_dialog")
                    (Studio.connection_of Demo.config_default [Demo.dialog]))).
Proof.
  apply (@callTool_runs_iff Studio.host
           (Studio.connection_of Demo.config_default [Demo.dialog])
           (Studio.call "browser_handle_dialog")
           Demo.browser_handle_dialog eq_refl).
  left. exists "dialog". repeat split; [discriminate | cbn; auto].
Defined.

Lemma callTool_passes_result_witness :
  callTool (Studio.call "browser_handle_dialog")
           (Studio.connection_of Demo.config_default [Demo.dialog]) =
  (Returned {| content := [ {| c_type := "text"; c_text := "- Ran" |} ];
               isError := None |},
   Studio.connection_of Demo.config_default [],
   [CallModalStates;
    @CallRun Studio.host Demo.browser_handle_dialog (Some tt)]).
Proof.
  apply (@callTool_passes_result Studio.host
           (Studio.connection_of Demo.config_default [Demo.dialog])
           (Studio.call "browser_handle_dialog")
           Demo.browser_handle_dialog _ [] eq_refl).
  - left. exists "dialog". repeat split; [discriminate | cbn; auto].
  - reflexivity.
Defined.

Lemma callTool_run_calls_witness :
  exists pre post,
    tools (Studio.connection_of Demo.config_default []) =
    (pre ++ Studio.twin_first :: post)%list /\
    forall u, In u pre -> name (schema u) <> "browser_twin".
Proof.
  destruct (proj2 (@callTool_run_calls Studio.host
                     (Studio.connection_of Demo.config_default [])
                     (Studio.call "browser_twin"))
                  Studio.twin_first (Some tt))
    as (_ & pre & post & Htools & _ & Hpre).
  - cbn. right. left. reflexivity.
  - exists pre, post. split; [exact Htools | exact Hpre].
Defined.

Lemma callTool_frame_witness :
  snd (fst (callTool (Studio.call "browser_snapshot")
                     (Studio.connection_of Demo.config_default
                                           [Demo.dialog]))) =
  Studio.connection_of Demo.config_default [Demo.dialog].
Proof.
  apply (@callTool_frame Studio.host
           (Studio.connection_of Demo.config_default [Demo.dialog])
           (Studio.call "browser_snapshot")).
  cbn. intros t a [H | [H | []]]; discriminate.
Defined.

Lemma listed_iff_dispatched_witness :
  In (@CallModalStates Studio.host)
     (snd (callTool (Studio.call "browser_pdf_save")
                    (Studio.connection_of Studio.config_keep []))).
Proof.
  apply (@listed_iff_dispatched Studio.host
           (Studio.connection_of Studio.config_keep [])
           "browser_pdf_save" (Some tt) _ eq_refl).
  cbn. auto.
Defined.

Lemma kept_open_for_lifetime_witness :
  snd (close (snd (fst (serve [CallToolRequestOf (Studio.call "browser_snapshot")]
                              (Studio.connection_of Studio.config_keep []))))) =
  [@CallServerClose Studio.host].
Proof.
  apply (@kept_open_for_lifetime Studio.host Studio.config_keep tt
           (Studio.connection_of Studio.config_keep []) eq_refl eq_refl).
  apply serve_lifetime.
Defined.

(* ================================================================== *)
(** ** The screenshot handler and its schema, further *)

Module ScreenshotMore.

Import Screenshot.

Section HandlerMore.

Context {X : Externals}.

(** The file-naming call of the handler, as a value. *)
Local Abbreviation file_name_of context tab params :=
  (if useStandardizedPath params
   then standardizedOutputFile (page_url tab) (fileType_of params)
   else outputFile (config context) (filename params)).

(** What a returned result is made of. *)
Lemma handle_returned (context : HandlerContext) (params : Params)
    (res : ToolResult) :
  fst (handle context params) = Returned res ->
  exists tab snapshot p line,
    currentTabOrDie context = Returned tab /\
    snapshotOrDie tab = Returned snapshot /\
    file_name_of context tab params = Returned p /\
    res =
    {| code :=
         ["// Screenshot " ++ subject params ++ " and save it as " ++ p; line];
       action :=
         match locator_of snapshot params with
         | Some l => LocatorScreenshot l (options_of params p)
         | None => PageScreenshot tab (options_of params p)
         end;
       captureSnapshot := true;
       waitForNetwork := false;
       resultOverride :=
         [ {| c_type := "text"; c_text := "Screenshot saved to: " ++ p |} ] |} /\
    match locator_of snapshot params with
    | Some l =>
        exists g, generateLocator l = Returned g /\
          line = "await page." ++ g ++ ".screenshot(" ++
                 formatObject (options_of params p) ++ ");"
    | None =>
        line = "await page.screenshot(" ++
               formatObject (options_of params p) ++ ");"
    end.
Proof.
  unfold handle.
  destruct (currentTabOrDie context) as [tab | e] eqn:Ht; [| discriminate].
  cbn [lift hbind].
  destruct (snapshotOrDie tab) as [snapshot | e] eqn:Hs; [| discriminate].
  cbn [lift hbind]. unfold call_standardizedOutputFile, call_outputFile.
  intros H. exists tab, snapshot.
  destruct (useStandardizedPath params);
    [destruct (standardizedOutputFile _ _) as [p | e]
    | destruct (outputFile _ _) as [p | e]];
    cbn [hbind] in H; try discriminate H;
    exists p;
    (destruct (locator_of snapshot params) as [l |];
     [destruct (generateLocator l) as [g | e] |]; cbn in H;
     try discriminate H; injection H as <-;
     eexists; repeat split; eauto).
Qed.

(** X11: the handler's failures.  Without a current tab, or without a
    snapshot of it, the handler throws what the lookup threw before any
    file name is asked for; when generating the locator fails, it throws
    after the one file-naming call has been made. *)
Theorem handle_failures (context : HandlerContext) (params : Params) :
  (forall e, currentTabOrDie context = Threw e ->
     handle context params = (Threw e, [])) /\
  (forall tab e,
     currentTabOrDie context = Returned tab -> snapshotOrDie tab = Threw e ->
     handle context params = (Threw e, [])) /\
  (forall tab snapshot p l e,
     currentTabOrDie context = Returned tab ->
     snapshotOrDie tab = Returned snapshot ->
     file_name_of context tab params = Returned p ->
     locator_of snapshot params = Some l ->
     generateLocator l = Threw e ->
     fst (handle context params) = Threw e /\
     List.length (snd (handle context params)) = 1).
Proof.
  unfold handle. split; [| split].
  - intros e ->. reflexivity.
  - intros tab e -> Hs. cbn [lift hbind]. rewrite Hs. reflexivity.
  - intros tab snapshot p l e -> Hs Hp Hl Hg. cbn [lift hbind].
    rewrite Hs. cbn [lift hbind].
    unfold call_standardizedOutputFile, call_outputFile.
    destruct (useStandardizedPath params); rewrite Hp; cbn [hbind];
      rewrite Hl, Hg; cbn; split; reflexivity.
Qed.

(** X12: the screenshot options.  Whenever the handler returns, the
    options of its action have type "png" and no quality when [raw] is
    truthy, type "jpeg" and quality 50 otherwise, scale "css", and
    [fullPage] true only when the argument is true. *)
Theorem handle_options (context : HandlerContext) (params : Params)
    (res : ToolResult) :
  fst (handle context params) = Returned res ->
  let o := action_options (action res) in
  o_type o = (if truthy_opt_bool (raw params) then "png" else "jpeg") /\
  o_quality o = (if truthy_opt_bool (raw params) then None else Some 50) /\
  o_scale o = "css" /\
  o_fullPage o = truthy_opt_bool (fullPage params).
Proof.
  intros H. destruct (handle_returned _ _ H)
    as (tab & snapshot & p & line & _ & _ & _ & -> & _).
  cbn [action]. destruct (locator_of snapshot params);
    cbn [action_options options_of o_type o_quality o_scale o_fullPage];
    unfold fileType_of;
    destruct (truthy_opt_bool (raw params)), (fullPage params) as [[] |];
    cbn; auto.
Qed.

(** X13: one path throughout.  Whenever the handler returns, the path
    the screenshot is saved to, the path in the comment line of the
    generated code and the path reported in the result text are the
    same, the second line of the code prints the very options the action
    runs with, and the result asks for a snapshot and for no network
    wait. *)
Theorem handle_one_path (context : HandlerContext) (params : Params)
    (res : ToolResult) :
  fst (handle context params) = Returned res ->
  exists p line,
    o_path (action_options (action res)) = p /\
    code res =
    ["// Screenshot " ++ subject params ++ " and save it as " ++ p; line] /\
    occurs_in (".screenshot(" ++
               formatObject (action_options (action res)) ++ ");") line /\
    resultOverride res =
    [ {| c_type := "text"; c_text := "Screenshot saved to: " ++ p |} ] /\
    captureSnapshot res = true /\ waitForNetwork res = false.
Proof.
  intros H. destruct (handle_returned _ _ H)
    as (tab & snapshot & p & line & _ & _ & _ & -> & Hline).
  exists p, line. cbn [action code resultOverride captureSnapshot
                       waitForNetwork].
  destruct (locator_of snapshot params) as [l |]; cbn [action_options].
  - destruct Hline as (g & _ & ->). repeat split; try reflexivity.
    do 2 apply occurs_in_app_r. apply occurs_in_self.
  - subst line. repeat split; try reflexivity.
    exists "await page", "". cbn. now rewrite string_app_empty_r.
Qed.

(** X14: schema and handler together.  On arguments the schema accepted,
    a returned result is an element screenshot exactly when [element]
    and [ref] are both non-empty: its action runs on the locator of that
    element and reference, and the comment line names the element.
    Otherwise both are empty or absent and the action is a screenshot of
    the tab's page. *)
Theorem handle_validated (a : RawArgs) (context : HandlerContext)
    (params : Params) (res : ToolResult) :
  screenshotSchema a = inr params ->
  fst (handle context params) = Returned res ->
  exists tab snapshot,
    currentTabOrDie context = Returned tab /\
    snapshotOrDie tab = Returned snapshot /\
    ((exists e r,
        element params = Some e /\ ref params = Some r /\
        e <> "" /\ r <> "" /\
        action res =
        LocatorScreenshot (refLocator snapshot e r)
                          (action_options (action res)) /\
        exists p, hd "" (code res) =
                  "// Screenshot " ++ e ++ " and save it as " ++ p) \/
     (truthy_opt_string (element params) = false /\
      truthy_opt_string (ref params) = false /\
      action res = PageScreenshot tab (action_options (action res)))).
Proof.
  intros Hs H.
  assert (Href : truthy_opt_string (element params) =
                 truthy_opt_string (ref params)).
  { unfold screenshotSchema in Hs.
    destruct (screenshotObject a) as [| data]; [discriminate |].
    destruct (refinement data) eqn:Hr; [| discriminate].
    injection Hs as <-. unfold refinement in Hr.
    now apply Bool.eqb_prop in Hr. }
  destruct (handle_returned _ _ H)
    as (tab & snapshot & p & line & Ht & Hsn & _ & -> & _).
  exists tab, snapshot. split; [exact Ht |]. split; [exact Hsn |].
  cbn [action code hd]. unfold locator_of, subject, element_or_empty.
  unfold truthy_opt_string in *.
  destruct (element params) as [e |], (ref params) as [r |]; cbn in Href.
  - destruct (truthy_string e) eqn:He, (truthy_string r) eqn:Hr;
      try discriminate; cbn.
    + left. exists e, r. repeat split; try (now apply truthy_string_true).
      now exists p.
    + right. auto.
  - rewrite Href. right. auto.
  - rewrite <- Href. right. auto.
  - right. auto.
Qed.

End HandlerMore.

(** *** The schema *)

Lemma z_string_inv (k : string) (v : JsValue) (s : string) :
  z_string k v = inr s <-> v = JString s.
Proof.
  destruct v; cbn; split; intros H; try discriminate; congruence.
Qed.

Lemma z_string_optional_inv (k : string) (v : JsValue) (o : option string) :
  z_string_optional k v = inr o <->
  v = match o with Some s => JString s | None => JUndefined end.
Proof.
  destruct v, o; cbn; split; intros H; try discriminate; congruence.
Qed.

Lemma z_boolean_optional_inv (k : string) (v : JsValue) (o : option bool) :
  z_boolean_optional k v = inr o <->
  v = match o with Some b => JBoolean b | None => JUndefined end.
Proof.
  destruct v, o; cbn; split; intros H; try discriminate; congruence.
Qed.

Lemma screenshotObject_inv (a : RawArgs) (p : Params) :
  screenshotObject a = inr p <->
  z_boolean_optional "raw" (a_raw a) = inr (raw p) /\
  z_string "filename" (a_filename a) = inr (filename p) /\
  z_boolean_optional "fullPage" (a_fullPage a) = inr (fullPage p) /\
  z_string_optional "element" (a_element a) = inr (element p) /\
  z_string_optional "ref" (a_ref a) = inr (ref p).
Proof.
  unfold screenshotObject.
  destruct (z_boolean_optional "raw" (a_raw a));
    destruct (z_string "filename" (a_filename a));
    destruct (z_boolean_optional "fullPage" (a_fullPage a));
    destruct (z_string_optional "element" (a_element a));
    destruct (z_string_optional "ref" (a_ref a));
    (split;
     [ intros H; try discriminate H; injection H as <-; cbn; auto
     | intros (H1 & H2 & H3 & H4 & H5); try discriminate;
       destruct p; cbn in *; congruence ]).
Qed.

(** X15: what the schema accepts, and what it hands on.  The schema
    accepts an argument object with data [p] exactly when the object's
    five fields are the fields of [p] (a boolean or nothing for [raw] and
    [fullPage], a string for [filename], a string or nothing for
    [element] and [ref]) and [element] and [ref] are both non-empty or
    both empty or absent: the data is the input, unchanged. *)
Theorem screenshotSchema_accepts_iff (a : RawArgs) (p : Params) :
  screenshotSchema a = inr p <->
  a = {| a_raw := match raw p with
                  | Some b => JBoolean b | None => JUndefined end;
         a_filename := JString (filename p);
         a_fullPage := match fullPage p with
                       | Some b => JBoolean b | None => JUndefined end;
         a_element := match element p with
                      | Some s => JString s | None => JUndefined end;
         a_ref := match ref p with
                  | Some s => JString s | None => JUndefined end |} /\
  truthy_opt_string (element p) = truthy_opt_string (ref p).
Proof.
  assert (Hobj : screenshotObject a = inr p <->
                 a = {| a_raw := match raw p with
                                 | Some b => JBoolean b | None => JUndefined end;
                        a_filename := JString (filename p);
                        a_fullPage := match fullPage p with
                                      | Some b => JBoolean b
                                      | None => JUndefined end;
                        a_element := match element p with
                                     | Some s => JString s
                                     | None => JUndefined end;
                        a_ref := match ref p with
                                 | Some s => JString s
                                 | None => JUndefined end |}).
  { rewrite screenshotObject_inv, !z_boolean_optional_inv, z_string_inv,
      !z_string_optional_inv.
    destruct a as [v1 v2 v3 v4 v5]. cbn. split.
    - intros (-> & -> & -> & -> & ->). reflexivity.
    - intros [= -> -> -> -> ->]. auto. }
  rewrite <- Hobj. unfold screenshotSchema, refinement. split.
  - destruct (screenshotObject a) as [| data]; [discriminate |].
    destruct (Bool.eqb _ _) eqn:Hr; [| discriminate].
    intros [= <-]. split; [reflexivity | now apply Bool.eqb_prop].
  - intros [-> Hr]. now rewrite Hr, Bool.eqb_reflx.
Qed.

(** X16: the file name is required.  An argument object whose
    [filename] is missing or not a string is rejected, whatever its other
    fields, and the issues name the path [filename] with the expected
    type. *)
Theorem screenshotSchema_requires_filename (a : RawArgs) :
  (forall s, a_filename a <> JString s) ->
  exists issues,
    screenshotSchema a = inl issues /\
    In (InvalidType ["filename"] "string") issues.
Proof.
  intros Hf. unfold screenshotSchema, screenshotObject.
  assert (Hz : z_string "filename" (a_filename a) =
               inl (InvalidType ["filename"] "string")).
  { destruct (a_filename a) as [| | b | s |]; try reflexivity.
    now destruct (Hf s). }
  rewrite Hz.
  destruct (z_boolean_optional "raw" (a_raw a));
    destruct (z_boolean_optional "fullPage" (a_fullPage a));
    destruct (z_string_optional "element" (a_element a));
    destruct (z_string_optional "ref" (a_ref a));
    eexists; (split; [reflexivity |]); cbn; auto.
Qed.

End ScreenshotMore.

(* ================================================================== *)
(** ** The screenshot tool in a connection *)

Section ScreenshotInCatalog.

Context {X : Externals}.

(** X17: the screenshot tool as a member of a catalog.  Being a "core"
    tool it is in the active set under every allow-list; setting no
    [clearsModalState], a call to it is rejected while any modal state is
    present and reaches [context.run] when none is; and the list handler
    announces it as read-only and not destructive. *)
Theorem screenshot_offered_and_gated (s : InputSchema) (h : Handler) :
  let shot := ScreenshotTool.screenshot s h in
  let request a :=
    {| rq_name := "browser_take_screenshot"; rq_arguments := a |} in
  (forall config, In shot (allTools config) -> In shot (selectTools config)) /\
  (forall c a,
     find_tool (tools c) "browser_take_screenshot" = Some shot ->
     modalStates (ctx_session (context c)) <> [] ->
     exists r,
       callTool (request a) c =
       (Returned r, c, [CallModalStates; CallModalStatesMarkdown]) /\
       isError r = Some true) /\
  (forall c a,
     find_tool (tools c) "browser_take_screenshot" = Some shot ->
     modalStates (ctx_session (context c)) = [] ->
     snd (callTool (request a) c) = [CallModalStates; CallRun shot a]) /\
  readOnlyHint (mt_annotations (listTools_entry shot)) = true /\
  destructiveHint (mt_annotations (listTools_entry shot)) = false.
Proof.
  intros shot request. repeat split.
  - intros config Hin. unfold selectTools.
    destruct (capabilities config) as [caps |]; [| exact Hin].
    destruct (0 <? List.length caps)%nat; [| exact Hin].
    apply filter_In. split; [exact Hin | reflexivity].
  - intros c a Hf Hne.
    rewrite callTool_found with (T := shot) by exact Hf. cbn zeta.
    unfold modal_state_missing, modal_state_unhandled. cbn.
    rewrite length_map.
    destruct (modalStates (ctx_session (context c))); [congruence |].
    cbn. eexists. split; reflexivity.
  - intros c a Hf He.
    rewrite callTool_found with (T := shot) by exact Hf. cbn zeta.
    unfold modal_state_missing, modal_state_unhandled. cbn.
    rewrite He. cbn. destruct (run shot a _) as [[r | e] s']; reflexivity.
Qed.

End ScreenshotInCatalog.

Lemma screenshot_offered_and_gated_witness :
  In Studio.shot (selectTools (X := Studio.host) Studio.config_keep) /\
  snd (callTool (Studio.call "browser_take_screenshot")
                (Studio.connection_of Studio.config_keep [])) =
  [CallModalStates; @CallRun Studio.host Studio.shot (Some tt)].
Proof.
  destruct (@screenshot_offered_and_gated Studio.host tt tt)
    as (Hsel & _ & Hrun & _).
  split.
  - apply Hsel. cbn. auto.
  - apply (Hrun (Studio.connection_of Studio.config_keep []) (Some tt));
      reflexivity.
Defined.

Lemma handle_failures_witness :
  Screenshot.handle (X := Studio.tabless_host) Demo.config_default
    (Demo.shot_params "my-screenshot.png") =
  (Threw "Error: No current tab", []).
Proof.
  apply (@ScreenshotMore.handle_failures Studio.tabless_host
           Demo.config_default (Demo.shot_params "my-screenshot.png")).
  reflexivity.
Defined.

Lemma handle_options_witness :
  exists res,
    fst (Screenshot.handle (X := Demo.shot_host) Demo.config_default
           Studio.element_params) = Returned res /\
    Screenshot.o_type (Screenshot.action_options (Screenshot.action res)) =
    "png" /\
    Screenshot.o_quality (Screenshot.action_options (Screenshot.action res)) =
    None.
Proof.
  eexists. split; [reflexivity |].
  destruct (@ScreenshotMore.handle_options Demo.shot_host
              Demo.config_default Studio.element_params _ eq_refl)
    as (Ht & Hq & _).
  split; assumption.
Defined.

Lemma handle_one_path_witness :
  exists res,
    fst (Screenshot.handle (X := Demo.shot_host) Demo.config_default
           Studio.element_params) = Returned res /\
    Screenshot.resultOverride res =
    [ {| c_type := "text";
         c_text := "Screenshot saved to: /tmp/button.png" |} ] /\
    Screenshot.o_path (Screenshot.action_options (Screenshot.action res)) =
    "/tmp/button.png".
Proof.
  eexists. split; [reflexivity |].
  destruct (@ScreenshotMore.handle_one_path Demo.shot_host
              Demo.config_default Studio.element_params _ eq_refl)
    as (p & line & Hp & _ & _ & Hr & _).
  split; [| exact eq_refl]. rewrite Hr. cbn in Hp. now rewrite <- Hp.
Defined.

Lemma handle_validated_witness :
  exists res,
    fst (Screenshot.handle (X := Demo.shot_host) Demo.config_default
           Studio.element_params) = Returned res /\
    Screenshot.action res =
    @Screenshot.LocatorScreenshot Demo.shot_host "aria-ref=e7"
      (Screenshot.action_options (Screenshot.action res)).
Proof.
  eexists. split; [reflexivity |].
  destruct (@ScreenshotMore.handle_validated Demo.shot_host
              Studio.element_args Demo.config_default Studio.element_params
              _ eq_refl eq_refl)
    as (tab & snapshot & _ & _ & [(e & r & He & Hr & _ & _ & Ha & _) | (Hf & _)]).
  - injection He as <-. injection Hr as <-. exact Ha.
  - discriminate Hf.
Defined.

Lemma screenshotSchema_accepts_iff_witness :
  Screenshot.screenshotSchema Studio.element_args =
  inr Studio.element_params.
Proof.
  apply (proj2 (ScreenshotMore.screenshotSchema_accepts_iff
                  Studio.element_args Studio.element_params)).
  split; reflexivity.
Defined.

Lemma screenshotSchema_requires_filename_witness :
  exists issues,
    Screenshot.screenshotSchema Studio.nameless_args = inl issues /\
    In (Screenshot.InvalidType ["filename"] "string") issues.
Proof.
  apply (@ScreenshotMore.screenshotSchema_requires_filename
           Studio.nameless_args).
  intros s H. discriminate H.
Defined.
